(** * server.py: the MySQL gateway, its authorization gate and its handlers

    A shallow embedding of [server.py].  Python values are embedded as
    follows.

    - A [str] is a [string]; a character stands for the code point of the same
      number, so the embedding covers the code points below 256 (the range of
      an HTTP header value once the transport has decoded it).
    - [Optional[str]] is [option string]; truthiness is written out
      ([None] and the empty string are falsy).
    - A raised exception is the [Raise] outcome of [res]; only subclasses of
      [Exception] are modelled.
    - The MySQL driver ([mysql.connector]) is not part of the program.  It is a
      record of functions over an abstract engine state, and every call the
      program makes on it is recorded in a log. *)

From Stdlib Require Import List ZArith NArith Lia Bool Ascii String.
Import ListNotations.
Open Scope string_scope.

(** ** Python strings *)

Module PyStr.

Definition code (c : ascii) : N := N_of_ascii c.

(** [str.isspace] on one character, code points below 256. *)
Definition isspace (c : ascii) : bool :=
  let n := code c in
  ((9 <=? n) && (n <=? 13) || (28 <=? n) && (n <=? 32)
   || (n =? 133) || (n =? 160))%N.

(** [str.lower] on one character, code points below 256. *)
Definition lower_char (c : ascii) : ascii :=
  let n := code c in
  if ((65 <=? n) && (n <=? 90)
      || (192 <=? n) && (n <=? 222) && negb (n =? 215))%N
  then ascii_of_N (n + 32) else c.

Fixpoint lower (s : string) : string :=
  match s with
  | EmptyString => EmptyString
  | String c r => String (lower_char c) (lower r)
  end.

(** [s.startswith(p)] *)
Fixpoint startswith (p s : string) : bool :=
  match p, s with
  | EmptyString, _ => true
  | String _ _, EmptyString => false
  | String a p', String b s' => Ascii.eqb a b && startswith p' s'
  end.

Fixpoint lstrip (s : string) : string :=
  match s with
  | EmptyString => EmptyString
  | String c r => if isspace c then lstrip r else s
  end.

Fixpoint rev (s : string) : string :=
  match s with
  | EmptyString => EmptyString
  | String c r => rev r ++ String c EmptyString
  end.

Definition rstrip (s : string) : string := rev (lstrip (rev s)).

(** [s.strip()] *)
Definition strip (s : string) : string := rstrip (lstrip s).

(** [s.split(sep, 1)] for a separator of one character: the whole string
    when [sep] does not occur, else the text before the first occurrence
    and the text after it. *)
Fixpoint split_once (sep : ascii) (s : string) : list string :=
  match s with
  | EmptyString => [EmptyString]
  | String c r =>
      if Ascii.eqb c sep then [EmptyString; r]
      else match split_once sep r with
           | [] => [String c EmptyString]
           | h :: t => String c h :: t
           end
  end.

(** [s.replace(old, new)] for [old] of one character. *)
Fixpoint replace_char (old : ascii) (new : string) (s : string) : string :=
  match s with
  | EmptyString => EmptyString
  | String c r =>
      if Ascii.eqb c old then new ++ replace_char old new r
      else String c (replace_char old new r)
  end.

(** [sep.join(l)] *)
Definition join (sep : string) (l : list string) : string :=
  String.concat sep l.

(** Number of occurrences of a character. *)
Fixpoint count (c : ascii) (s : string) : nat :=
  match s with
  | EmptyString => 0
  | String d r => (if Ascii.eqb d c then 1 else 0) + count c r
  end.

(** Truthiness of a [str] and of an [Optional[str]]. *)
Definition nonempty (s : string) : bool :=
  match s with EmptyString => false | String _ _ => true end.

Definition truthy (o : option string) : bool :=
  match o with None => false | Some s => nonempty s end.

(** [a or b] on [Optional[str]] operands. *)
Definition or_else (a b : option string) : option string :=
  if truthy a then a else b.

End PyStr.

(** ** Exceptions and outcomes *)

Inductive pyexc : Type :=
| PermissionError (msg : string)
| InterfaceError (msg : string)
| DatabaseError (errno : Z) (msg : string)
| IndexError (msg : string)
| KeyError (msg : string)
| AttributeError (msg : string)
| OtherException (msg : string).

Inductive res (A : Type) : Type :=
| Ok (a : A)
| Raise (e : pyexc).
Arguments Ok {A} a.
Arguments Raise {A} e.

Definition res_bind {A B} (r : res A) (k : A -> res B) : res B :=
  match r with
  | Ok a => k a
  | Raise e => Raise e
  end.

(** ** Process configuration (lines 24-34) *)

Record config : Type := {
  MYSQL_HOST : string;
  MYSQL_PORT : Z;
  MYSQL_USER : string;
  MYSQL_PASSWORD : string;
  DEFAULT_DB : option string;
  API_KEY : option string;
  MYSQL_AUTH_PLUGIN : option string
}.

(** ** The call context, as [_require_auth] reads it *)

(** An attribute of an object: missing, a property that raises, or a value. *)
Inductive attr (A : Type) : Type :=
| Missing
| Throws (e : pyexc)
| Has (a : A).
Arguments Missing {A}.
Arguments Throws {A} e.
Arguments Has {A} a.

(** [getattr(o, name, default)]: the default stands in for a missing
    attribute and for a property that raises [AttributeError]; any other
    exception of a property propagates. *)
Definition getattr {A} (a : attr A) (default : A) : res A :=
  match a with
  | Missing => Ok default
  | Throws (AttributeError _) => Ok default
  | Throws e => Raise e
  | Has v => Ok v
  end.

(** A headers object: its truthiness and its [get] method. *)
Record headers : Type := {
  hdr_truthy : bool;
  hdr_get : string -> res (option string)
}.

(** [{}] *)
Definition empty_headers : headers :=
  {| hdr_truthy := false; hdr_get := fun _ => Ok None |}.

Record request : Type := { req_headers : attr headers }.

Record request_context_t : Type := { rc_request : attr (option request) }.

Record context : Type := {
  request_headers : attr (option headers);
  request_context : attr (option request_context_t)
}.

Definition headers_truthy (h : option headers) : bool :=
  match h with None => false | Some x => hdr_truthy x end.

(** Lines 60-63, the body of the [try] block: the value bound to [token]. *)
Definition read_token (ctx : context) : res (option string) :=
  res_bind (getattr (request_headers ctx) None) (fun a =>
  res_bind
    (if headers_truthy a then Ok a
     else
       res_bind (getattr (request_context ctx) None) (fun rc =>
       res_bind (match rc with
                 | None => Ok None
                 | Some c => getattr (rc_request c) None
                 end) (fun b =>
       match b with
       | None => Ok None
       | Some rq =>
           res_bind (getattr (req_headers rq) empty_headers) (fun h =>
           Ok (Some h))
       end)))
    (fun hs =>
  match hs with
  | None => Ok None
  | Some h =>
      if hdr_truthy h then
        res_bind (hdr_get h "authorization") (fun x =>
        if PyStr.truthy x then Ok x else hdr_get h "Authorization")
      else Ok None
  end)).

(** Lines 57-65: [token] after the [try]/[except Exception]. *)
Definition presented_token (ctx : context) : option string :=
  match read_token ctx with
  | Ok t => t
  | Raise _ => None
  end.

Definition unauthorized : pyexc :=
  PermissionError "Unauthorized: missing or invalid bearer token".

(** Line 66, the condition of the [if], evaluated left to right. *)
Definition token_rejected (key : string) (token : option string) : res bool :=
  match token with
  | None => Ok true
  | Some t =>
      if negb (PyStr.nonempty t) then Ok true
      else if negb (PyStr.startswith "bearer " (PyStr.lower t)) then Ok true
      else match nth_error (PyStr.split_once " " t) 1 with
           | None => Raise (IndexError "list index out of range")
           | Some rest => Ok (negb (PyStr.strip rest =? key))
           end
  end.

(** [_require_auth] (lines 53-67). *)
Definition _require_auth (conf : config) (ctx : context) : res unit :=
  if negb (PyStr.truthy (API_KEY conf)) then Ok tt
  else
    let token := presented_token ctx in
    match API_KEY conf with
    | None => Ok tt
    | Some key =>
        res_bind (token_rejected key token) (fun bad =>
        if bad then Raise unauthorized else Ok tt)
    end.

(** The check of [_require_auth] as a function of the secret and of the
    credential that the context yields (lines 55-56 and 66-67). *)
Definition authorize (secret credential : option string) : res unit :=
  if negb (PyStr.truthy secret) then Ok tt
  else
    match secret with
    | None => Ok tt
    | Some key =>
        res_bind (token_rejected key credential) (fun bad =>
        if bad then Raise unauthorized else Ok tt)
    end.

(** ** Connection arguments (lines 41-51) *)

Record conn_args : Type := {
  host : string;
  port : Z;
  user : string;
  password : string;
  autocommit : bool;
  database : option string;
  auth_plugin : option string
}.

(** The [cfg] dictionary of [_connect]. *)
Definition connect_cfg (conf : config) (db : option string) : conn_args :=
  {| host := MYSQL_HOST conf;
     port := MYSQL_PORT conf;
     user := MYSQL_USER conf;
     password := MYSQL_PASSWORD conf;
     autocommit := true;
     database := PyStr.or_else db (DEFAULT_DB conf);
     auth_plugin :=
       PyStr.or_else (MYSQL_AUTH_PLUGIN conf) (Some "mysql_native_password") |}.

(** ** Values, rows and the driver *)

Inductive pyval : Type :=
| VNone
| VBool (b : bool)
| VInt (z : Z)
| VStr (s : string).

(** A row as the cursor returns it: a tuple, or a dictionary for a cursor
    opened with [dictionary=True]. *)
Inductive row : Type :=
| TupleRow (vs : list pyval)
| DictRow (kv : list (string * pyval)).

(** [r[0]] *)
Definition row_item0 (r : row) : res pyval :=
  match r with
  | TupleRow (v :: _) => Ok v
  | TupleRow [] => Raise (IndexError "tuple index out of range")
  | DictRow _ => Raise (KeyError "0")
  end.

(** What a cursor holds after a statement: [rowcount], [lastrowid] ([None]
    when the cursor has none) and what [fetchall] will do. *)
Record cursor_state : Type := {
  rowcount : Z;
  lastrowid : option Z;
  pending : res (list row)
}.

(** The calls the program makes on the driver, in the order it makes them.
    [cid] numbers the connections by order of opening. *)
Inductive event : Type :=
| EvConnect (cid : nat) (args : conn_args)
| EvCursor (cid : nat) (dictionary : bool)
| EvExecute (cid : nat) (sql : string) (params : option (list pyval))
| EvExecuteMany (cid : nat) (sql : string) (params : list (list pyval))
| EvFetchall (cid : nat)
| EvCursorClose (cid : nat)
| EvClose (cid : nat).

Definition is_connect (ev : event) : bool :=
  match ev with EvConnect _ _ => true | _ => false end.

Definition is_close_of (cid : nat) (ev : event) : bool :=
  match ev with EvClose c => Nat.eqb c cid | _ => false end.

Definition is_close (ev : event) : bool :=
  match ev with EvClose _ => true | _ => false end.

(** Calls of [mysql.connector.connect] and of [con.close] in a log. *)
Definition opens (l : list event) : nat := List.length (filter is_connect l).
Definition closes (l : list event) : nat := List.length (filter is_close l).
Definition closes_of (cid : nat) (l : list event) : nat :=
  List.length (filter (is_close_of cid) l).

(** The driver over an engine state [E]: each call may change the engine and
    may raise. *)
Record driver (E : Type) : Type := {
  drv_connect : conn_args -> E -> E * res unit;
  drv_cursor : bool -> E -> E * res unit;
  drv_execute : string -> option (list pyval) -> E -> E * res cursor_state;
  drv_executemany : string -> list (list pyval) -> E -> E * res cursor_state;
  drv_cursor_close : E -> E * res unit;
  drv_close : E -> E * res unit
}.
Arguments drv_connect {E} d _ _.
Arguments drv_cursor {E} d _ _.
Arguments drv_execute {E} d _ _ _.
Arguments drv_executemany {E} d _ _ _.
Arguments drv_cursor_close {E} d _.
Arguments drv_close {E} d _.

Record world (E : Type) : Type := {
  log : list event;
  eng : E
}.
Arguments log {E} w.
Arguments eng {E} w.
Arguments Build_world {E} _ _.

(** ** Statement text of the structured operations *)

Definition backtick : ascii := "`"%char.

(** [x.replace('`', '')] *)
Definition strip_backticks (x : string) : string :=
  PyStr.replace_char backtick "" x.

(** [f"`{x.replace('`','')}`"] *)
Definition quote_ident (x : string) : string :=
  "`" ++ strip_backticks x ++ "`".

(** Line 104 *)
Definition describe_sql (table : string) : string :=
  "DESCRIBE " ++ quote_ident table.

(** Line 139 *)
Definition create_database_sql (name : string) : string :=
  "CREATE DATABASE " ++ quote_ident name.

(** Line 148 *)
Definition drop_database_sql (name : string) : string :=
  "DROP DATABASE " ++ quote_ident name.

(** Line 167 *)
Definition drop_table_sql (table : string) : string :=
  "DROP TABLE " ++ quote_ident table.

(** A [Dict[str, Any]] as its items in insertion order. *)
Definition record := list (string * pyval).
Definition keys (data : record) : list string := map fst data.
Definition values (data : record) : list pyval := map snd data.

(** Lines 176-178 *)
Definition insert_cols (data : record) : string :=
  PyStr.join ", " (map quote_ident (keys data)).

Definition insert_placeholders (data : record) : string :=
  PyStr.join ", " (repeat "%s" (List.length data)).

Definition insert_sql (table : string) (data : record) : string :=
  "INSERT INTO " ++ quote_ident table ++ " (" ++ insert_cols data
  ++ ") VALUES (" ++ insert_placeholders data ++ ")".

(** ** The handlers *)

(** A computation that calls the driver: it may raise, and it changes the
    log and the engine. *)
Definition M (E A : Type) : Type := world E -> res A * world E.

Definition ret {E A} (a : A) : M E A := fun w => (Ok a, w).

Definition bind {E A B} (m : M E A) (k : A -> M E B) : M E B :=
  fun w =>
    match m w with
    | (Ok a, w') => k a w'
    | (Raise e, w') => (Raise e, w')
    end.

Notation "x <- m ;; k" := (bind m (fun x => k))
  (at level 61, m at next level, right associativity).
Notation "m ;;; k" := (bind m (fun _ => k))
  (at level 61, right associativity).

(** A pure step that may raise. *)
Definition lift {E A} (r : res A) : M E A := fun w => (r, w).

Definition get_log {E} : M E (list event) := fun w => (Ok (log w), w).

(** One call on the driver, recorded whether it raises or not. *)
Definition call {E A} (ev : event) (f : E -> E * res A) : M E A :=
  fun w =>
    let (e', r) := f (eng w) in
    (r, {| log := log w ++ [ev]; eng := e' |}).

(** [try: body finally: fin] *)
Definition try_finally {E A} (body : M E A) (fin : M E unit) : M E A :=
  fun w =>
    let (r, w1) := body w in
    match fin w1 with
    | (Ok _, w2) => (r, w2)
    | (Raise e, w2) => (Raise e, w2)
    end.

(** [try: m except Exception: pass] *)
Definition suppress {E} (m : M E unit) : M E unit :=
  fun w => let (_, w1) := m w in (Ok tt, w1).

(** [try: m except mysql.connector.errors.InterfaceError: h] *)
Definition except_interface {E A} (m : M E A) (h : M E A) : M E A :=
  fun w =>
    match m w with
    | (Raise (InterfaceError _), w1) => h w1
    | other => other
    end.

(** The items of a list comprehension, left to right. *)
Fixpoint map_res {A B} (f : A -> res B) (l : list A) : res (list B) :=
  match l with
  | [] => Ok []
  | x :: r => res_bind (f x) (fun y =>
              res_bind (map_res f r) (fun ys => Ok (y :: ys)))
  end.

(** The dictionary [run_sql] returns. *)
Record run_sql_result : Type := {
  r_rowcount : Z;
  r_lastrowid : option Z;
  r_rows : list row
}.

Section Handlers.

Variable E : Type.
Variable drv : driver E.
Variable conf : config.

Let Md := M E.

(** [_connect] (lines 41-51); the result is the number of the connection. *)
Definition _connect (db : option string) : Md nat :=
  l <- get_log ;;
  let cid := opens l in
  call (EvConnect cid (connect_cfg conf db))
       (drv_connect drv (connect_cfg conf db)) ;;;
  ret cid.

(** [con.cursor(dictionary=d)] *)
Definition cursor (con : nat) (d : bool) : Md nat :=
  call (EvCursor con d) (drv_cursor drv d) ;;; ret con.

(** [cur.execute(sql)] and [cur.execute(sql, params)] *)
Definition execute (cur : nat) (sql : string) (params : option (list pyval))
  : Md cursor_state :=
  call (EvExecute cur sql params) (drv_execute drv sql params).

(** [cur.executemany(sql, params)] *)
Definition executemany (cur : nat) (sql : string) (params : list (list pyval))
  : Md cursor_state :=
  call (EvExecuteMany cur sql params) (drv_executemany drv sql params).

(** [cur.fetchall()] *)
Definition fetchall (cur : nat) (st : cursor_state) : Md (list row) :=
  call (EvFetchall cur) (fun e => (e, pending st)).

(** [cur.close()] *)
Definition cursor_close (cur : nat) : Md unit :=
  call (EvCursorClose cur) (drv_cursor_close drv).

(** [con.close()] *)
Definition con_close (con : nat) : Md unit :=
  call (EvClose con) (drv_close drv).

Definition require_auth (ctx : context) : Md unit :=
  lift (_require_auth conf ctx).

(** Lines 71-74 *)
Definition ping (ctx : context) : Md string :=
  require_auth ctx ;;;
  ret "pong".

(** Lines 76-85 *)
Definition list_databases (ctx : context) : Md (list pyval) :=
  require_auth ctx ;;;
  con <- _connect None ;;
  cur <- cursor con false ;;
  st <- execute cur "SHOW DATABASES" None ;;
  rows <- fetchall cur st ;;
  dbs <- lift (map_res row_item0 rows) ;;
  cursor_close cur ;;; con_close con ;;;
  ret dbs.

(** Lines 87-96 *)
Definition list_tables (ctx : context) (db : option string)
  : Md (list pyval) :=
  require_auth ctx ;;;
  con <- _connect db ;;
  cur <- cursor con false ;;
  st <- execute cur "SHOW TABLES" None ;;
  rows <- fetchall cur st ;;
  tables <- lift (map_res row_item0 rows) ;;
  cursor_close cur ;;; con_close con ;;;
  ret tables.

(** Lines 98-107 *)
Definition describe_table (ctx : context) (table : string)
  (db : option string) : Md (list row) :=
  require_auth ctx ;;;
  con <- _connect db ;;
  cur <- cursor con true ;;
  st <- execute cur (describe_sql table) None ;;
  rows <- fetchall cur st ;;
  cursor_close cur ;;; con_close con ;;;
  ret rows.

(** Lines 109-132 *)
Definition run_sql (ctx : context) (sql : string) (db : option string)
  : Md run_sql_result :=
  require_auth ctx ;;;
  con <- _connect db ;;
  cur <- cursor con true ;;
  try_finally
    (st <- execute cur sql None ;;
     let rc := rowcount st in
     let li := lastrowid st in
     rows <- except_interface (fetchall cur st) (ret []) ;;
     ret {| r_rowcount := rc; r_lastrowid := li; r_rows := rows |})
    (suppress (cursor_close cur ;;; con_close con)).

(** Lines 134-141 *)
Definition create_database (ctx : context) (name : string) : Md string :=
  require_auth ctx ;;;
  con <- _connect None ;;
  cur <- cursor con false ;;
  execute cur (create_database_sql name) None ;;;
  cursor_close cur ;;; con_close con ;;;
  ret ("created database " ++ name).

(** Lines 143-150 *)
Definition drop_database (ctx : context) (name : string) : Md string :=
  require_auth ctx ;;;
  con <- _connect None ;;
  cur <- cursor con false ;;
  execute cur (drop_database_sql name) None ;;;
  cursor_close cur ;;; con_close con ;;;
  ret ("dropped database " ++ name).

(** Lines 152-160 *)
Definition create_table (ctx : context) (ddl_sql : string)
  (db : option string) : Md string :=
  require_auth ctx ;;;
  con <- _connect db ;;
  cur <- cursor con false ;;
  execute cur ddl_sql None ;;;
  cursor_close cur ;;; con_close con ;;;
  ret "table created".

(** Lines 162-169 *)
Definition drop_table (ctx : context) (table : string) (db : option string)
  : Md string :=
  require_auth ctx ;;;
  con <- _connect db ;;
  cur <- cursor con false ;;
  execute cur (drop_table_sql table) None ;;;
  cursor_close cur ;;; con_close con ;;;
  ret ("dropped table " ++ table).

(** Lines 171-182; the result is the value under ["lastrowid"]. *)
Definition insert_row (ctx : context) (table : string) (data : record)
  (db : option string) : Md (option Z) :=
  require_auth ctx ;;;
  con <- _connect db ;;
  cur <- cursor con false ;;
  let sql := insert_sql table data in
  st <- execute cur sql (Some (values data)) ;;
  let last_id := lastrowid st in
  cursor_close cur ;;; con_close con ;;;
  ret last_id.

(** Lines 184-193; the result is the value under ["rowcount"]. *)
Definition execute_many (ctx : context) (sql : string)
  (params : list (list pyval)) (db : option string) : Md Z :=
  require_auth ctx ;;;
  con <- _connect db ;;
  cur <- cursor con false ;;
  st <- executemany cur sql params ;;
  let rc := rowcount st in
  cursor_close cur ;;; con_close con ;;;
  ret rc.

End Handlers.

(** ** The operation catalog *)

(** A call of one of the registered tools with its arguments. *)
Inductive operation : Type :=
| Ping
| ListDatabases
| ListTables (db : option string)
| DescribeTable (table : string) (db : option string)
| RunSql (sql : string) (db : option string)
| CreateDatabase (name : string)
| DropDatabase (name : string)
| CreateTable (ddl_sql : string) (db : option string)
| DropTable (table : string) (db : option string)
| InsertRow (table : string) (data : record) (db : option string)
| ExecuteMany (sql : string) (params : list (list pyval)) (db : option string).

Inductive reply : Type :=
| RText (s : string)
| RNames (l : list pyval)
| RRows (l : list row)
| RResult (r : run_sql_result)
| RLastId (i : option Z)
| RRowcount (n : Z).

Definition fmap {E A B} (f : A -> B) (m : M E A) : M E B :=
  x <- m ;; ret (f x).

(** The tool table: each operation runs its handler. *)
Definition handle {E} (drv : driver E) (conf : config) (ctx : context)
  (op : operation) : M E reply :=
  match op with
  | Ping => fmap RText (ping E conf ctx)
  | ListDatabases => fmap RNames (list_databases E drv conf ctx)
  | ListTables db => fmap RNames (list_tables E drv conf ctx db)
  | DescribeTable t db => fmap RRows (describe_table E drv conf ctx t db)
  | RunSql sql db => fmap RResult (run_sql E drv conf ctx sql db)
  | CreateDatabase n => fmap RText (create_database E drv conf ctx n)
  | DropDatabase n => fmap RText (drop_database E drv conf ctx n)
  | CreateTable ddl db => fmap RText (create_table E drv conf ctx ddl db)
  | DropTable t db => fmap RText (drop_table E drv conf ctx t db)
  | InsertRow t d db => fmap RLastId (insert_row E drv conf ctx t d db)
  | ExecuteMany sql ps db =>
      fmap RRowcount (execute_many E drv conf ctx sql ps db)
  end.

(** ** Reference statements and sample values *)

(** The check as the contract words it: open when no secret is set, else the
    credential has to be [Bearer <token>] with the token equal to the
    secret. *)
Definition spec_authorize (secret credential : option string) : bool :=
  match secret with
  | None => true
  | Some s =>
      match credential with
      | Some c => c =? "Bearer " ++ s
      | None => false
      end
  end.

(** A header [h] presents the secret [key]: a scheme that is [bearer] up to
    letter case, one space, and a rest that is [key] up to surrounding
    white space. *)
Definition presents (key h : string) : Prop :=
  exists scheme rest,
    h = scheme ++ " " ++ rest
    /\ PyStr.lower scheme = "bearer"
    /\ PyStr.strip rest = key.

(** The resolution order as the data model words it: the override when one
    is given, else the configured default. *)
Definition spec_resolve_schema (override default : option string)
  : option string :=
  match override with
  | Some s => Some s
  | None => default
  end.

Definition sample_conf : config :=
  {| MYSQL_HOST := "localhost";
     MYSQL_PORT := 3306;
     MYSQL_USER := "root";
     MYSQL_PASSWORD := "";
     DEFAULT_DB := Some "app";
     API_KEY := Some "s3cret";
     MYSQL_AUTH_PLUGIN := None |}.

(** A context that carries the given [authorization] header. *)
Definition ctx_with (h : string) : context :=
  {| request_headers :=
       Has (Some {| hdr_truthy := true;
                    hdr_get := fun k =>
                      if k =? "authorization" then Ok (Some h) else Ok None |});
     request_context := Missing |}.

(** A context whose [request_headers] property raises. *)
Definition ctx_faulty : context :=
  {| request_headers := Throws (OtherException "no request in scope");
     request_context := Missing |}.

(** A context whose [request_headers] property raises [AttributeError] and
    whose request carries the given [Authorization] header. *)
Definition ctx_attribute_error (h : string) : context :=
  {| request_headers := Throws (AttributeError "request_headers");
     request_context :=
       Has (Some {| rc_request :=
         Has (Some {| req_headers :=
           Has {| hdr_truthy := true;
                  hdr_get := fun k =>
                    if k =? "Authorization" then Ok (Some h)
                    else Ok None |} |}) |}) |}.

(** A context with no headers at all. *)
Definition ctx_bare : context :=
  {| request_headers := Missing; request_context := Missing |}.

(** A driver for the examples.  The engine state counts the statements run;
    a statement affects as many rows as it has parameters, and the row it
    generates is numbered by the count.  With [fail] set, running a
    statement raises. *)
Definition sample_execute (fail : bool) (sql : string)
  (params : option (list pyval)) (e : nat) : nat * res cursor_state :=
  if fail then (e, Raise (DatabaseError 1064 "syntax error"))
  else
    (S e,
     Ok {| rowcount :=
             match params with
             | Some ps => Z.of_nat (List.length ps)
             | None => 0
             end;
           lastrowid := Some (Z.of_nat (S e));
           pending := Raise (InterfaceError "No result set to fetch from.") |}).

(** Modelled from the spec: [cursor.executemany] of the driver, which is not
    part of the program.  "Executes the template once per tuple against the
    same connection, returning the sum of each execution's affected-row
    count": the statement runs once per parameter tuple, in order, on the
    same engine, and the row counts are added up; the first error stops the
    loop. *)
Fixpoint run_each {E} (exec : string -> option (list pyval) -> E
                              -> E * res cursor_state)
  (sql : string) (params : list (list pyval)) (acc : Z) (e : E)
  : E * res cursor_state :=
  match params with
  | [] =>
      (e, Ok {| rowcount := acc; lastrowid := None;
                pending :=
                  Raise (InterfaceError "No result set to fetch from.") |})
  | p :: rest =>
      match exec sql (Some p) e with
      | (e', Ok st) => run_each exec sql rest (acc + rowcount st)%Z e'
      | (e', Raise x) => (e', Raise x)
      end
  end.

Definition sample_driver (fail : bool) : driver nat :=
  {| drv_connect := fun _ e => (e, Ok tt);
     drv_cursor := fun _ e => (e, Ok tt);
     drv_execute := sample_execute fail;
     drv_executemany := fun sql ps e =>
       run_each (sample_execute fail) sql ps 0 e;
     drv_cursor_close := fun e => (e, Ok tt);
     drv_close := fun e => (e, Ok tt) |}.

Definition sample_world : world nat := {| log := []; eng := 0 |}.

(** The statements a log hands to [cur.execute], with their parameters. *)
Definition executed (l : list event)
  : list (string * option (list pyval)) :=
  flat_map (fun ev =>
              match ev with
              | EvExecute _ sql ps => [(sql, ps)]
              | _ => []
              end) l.

(** A computation hands the driver no statement but [sql] with [ps], and
    that at most once. *)
Definition runs_at_most {E A} (m : M E A) (sql : string)
  (ps : option (list pyval)) : Prop :=
  forall w, exists new,
    log (snd (m w)) = (log w ++ new)%list
    /\ (executed new = [] \/ executed new = [(sql, ps)]).

(** The characters of [s] other than [c], in order. *)
Definition keep_others (c : ascii) (s : string) : string :=
  string_of_list_ascii
    (filter (fun d => negb (Ascii.eqb d c)) (list_ascii_of_string s)).

(** The record with every value replaced by [None]. *)
Definition blank_values (data : record) : record :=
  map (fun kv => (fst kv, VNone)) data.

(** A driver on which opening and closing never raise. *)
Definition healthy {E} (drv : driver E) : Prop :=
  (forall a e, snd (drv_connect drv a e) = Ok tt)
  /\ (forall d e, snd (drv_cursor drv d e) = Ok tt)
  /\ (forall e, snd (drv_cursor_close drv e) = Ok tt)
  /\ (forall e, snd (drv_close drv e) = Ok tt).

(** The engine state a handler has reached when it runs its statement:
    after the connection and the cursor are opened. *)
Definition engine_at_execute {E} (drv : driver E) (conf : config)
  (db : option string) (dictionary : bool) (w : world E) : E :=
  fst (drv_cursor drv dictionary
         (fst (drv_connect drv (connect_cfg conf db) (eng w)))).

(** The connection and the cursor of a call open without raising. *)
Definition opens_cleanly {E} (drv : driver E) (conf : config)
  (db : option string) (dictionary : bool) (w : world E) : Prop :=
  snd (drv_connect drv (connect_cfg conf db) (eng w)) = Ok tt
  /\ snd (drv_cursor drv dictionary
            (fst (drv_connect drv (connect_cfg conf db) (eng w)))) = Ok tt.

(** A cursor that reports both rows and a row id. *)
Definition rowid_state : cursor_state :=
  {| rowcount := 1;
     lastrowid := Some 7%Z;
     pending := Ok [DictRow [("id", VInt 7)]] |}.

(** The affected-row counts of running [sql] once per parameter tuple, in
    order, from engine state [e]; the first error if one of the runs
    raises. *)
Fixpoint each_rowcount {E} (exec : string -> option (list pyval) -> E
                                   -> E * res cursor_state)
  (sql : string) (params : list (list pyval)) (e : E) : res (list Z) :=
  match params with
  | [] => Ok []
  | p :: rest =>
      match exec sql (Some p) e with
      | (e', Ok st) =>
          res_bind (each_rowcount exec sql rest e') (fun l =>
          Ok (rowcount st :: l))
      | (_, Raise x) => Raise x
      end
  end.

Definition sum_counts (l : list Z) : Z := fold_right Z.add 0%Z l.

(** The driver's [executemany] is the per-tuple loop. *)
Definition executemany_per_tuple {E} (drv : driver E) : Prop :=
  forall sql params e,
    drv_executemany drv sql params e
    = run_each (drv_execute drv) sql params 0 e.

(** A configuration with no secret: the gate is open. *)
Definition open_conf : config :=
  {| MYSQL_HOST := "localhost";
     MYSQL_PORT := 3306;
     MYSQL_USER := "root";
     MYSQL_PASSWORD := "";
     DEFAULT_DB := None;
     API_KEY := None;
     MYSQL_AUTH_PLUGIN := None |}.

(** A driver whose statements return the given cursor state. *)
Definition answering_driver (st : cursor_state) : driver nat :=
  {| drv_connect := fun _ e => (e, Ok tt);
     drv_cursor := fun _ e => (e, Ok tt);
     drv_execute := fun _ _ e => (S e, Ok st);
     drv_executemany := fun _ _ e => (S e, Ok st);
     drv_cursor_close := fun e => (e, Ok tt);
     drv_close := fun e => (e, Ok tt) |}.

Definition select_state : cursor_state :=
  {| rowcount := 2;
     lastrowid := None;
     pending := Ok [DictRow [("id", VInt 1); ("name", VStr "a")];
                    DictRow [("id", VInt 2); ("name", VStr "b")]] |}.

Definition alter_state : cursor_state :=
  {| rowcount := 0;
     lastrowid := Some 0%Z;
     pending := Raise (InterfaceError "No result set to fetch from.") |}.

(** ** The ASGI application and the entry point (lines 32, 195-223) *)

Inductive endpoint : Type :=
| Health
| McpStreamableHttp
| McpSse.

Inductive route : Type :=
| Route (path : string) (h : endpoint)
| Mount (path : string) (app : endpoint).

(** Line 32: [os.getenv("MCP_TRANSPORT", "http").lower()], from the value of
    the environment variable, [None] when it is unset. *)
Definition TRANSPORT (env_value : option string) : string :=
  PyStr.lower (match env_value with Some v => v | None => "http" end).

(** [build_asgi_app] (lines 200-215): the routes of the application. *)
Definition build_asgi_app (transport : string) : list route :=
  if transport =? "http" then
    [Route "/health" Health; Mount "/" McpStreamableHttp]
  else if transport =? "sse" then
    [Route "/health" Health; Mount "/" McpSse]
  else [Route "/health" Health].

(** What the entry point starts (lines 218-223). *)
Inductive launch : Type :=
| RunStdio
| Serve (routes : list route) (bind_host : string) (bind_port : Z).

Definition main (transport : string) (HOST : string) (PORT : Z) : launch :=
  if transport =? "stdio" then RunStdio
  else Serve (build_asgi_app transport) HOST PORT.

Definition is_mount (r : route) : bool :=
  match r with Mount _ _ => true | Route _ _ => false end.

(** ** Vocabulary of the handler properties *)

(** The argument a handler gives [_connect]; [ping] opens nothing. *)
Definition schema_arg (op : operation) : option (option string) :=
  match op with
  | Ping => None
  | ListDatabases | CreateDatabase _ | DropDatabase _ => Some None
  | ListTables db | DescribeTable _ db | RunSql _ db | CreateTable _ db
  | DropTable _ db | InsertRow _ _ db | ExecuteMany _ _ db => Some db
  end.

(** The [dictionary] flag a handler gives [con.cursor]. *)
Definition cursor_flag (op : operation) : bool :=
  match op with
  | DescribeTable _ _ | RunSql _ _ => true
  | _ => false
  end.

Definition is_ping (op : operation) : bool :=
  match op with Ping => true | _ => false end.

Definition is_run_sql (op : operation) : bool :=
  match op with RunSql _ _ => true | _ => false end.

(** The connection an event is about. *)
Definition event_cid (ev : event) : nat :=
  match ev with
  | EvConnect c _ | EvCursor c _ | EvExecute c _ _ | EvExecuteMany c _ _
  | EvFetchall c | EvCursorClose c | EvClose c => c
  end.

Definition is_statement (ev : event) : bool :=
  match ev with
  | EvExecute _ _ _ | EvExecuteMany _ _ _ => true
  | _ => false
  end.

(** Calls of [cur.execute] and [cur.executemany] in a log. *)
Definition statements (l : list event) : nat :=
  List.length (filter is_statement l).

(** Every statement the driver is given raises [x]. *)
Definition statements_fail {E} (drv : driver E) (x : pyexc) : Prop :=
  (forall sql ps e, snd (drv_execute drv sql ps e) = Raise x)
  /\ (forall sql ps e, snd (drv_executemany drv sql ps e) = Raise x).

(** Every statement the driver is given leaves the cursor in state [st]. *)
Definition statements_answer {E} (drv : driver E) (st : cursor_state) : Prop :=
  (forall sql ps e, snd (drv_execute drv sql ps e) = Ok st)
  /\ (forall sql ps e, snd (drv_executemany drv sql ps e) = Ok st).

(** [r] is a tuple whose first item is [v]. *)
Definition first_column (r : row) (v : pyval) : Prop :=
  exists rest, r = TupleRow (v :: rest).

(** A driver for the examples in which each kind of call can be made to
    raise; a statement that runs leaves the cursor in state [st]. *)
Definition scripted_driver (bad_connect bad_cursor bad_statement
  bad_cursor_close bad_close : bool) (st : cursor_state) : driver nat :=
  let outcome (bad : bool) (what : string) : res unit :=
    if bad then Raise (OtherException what) else Ok tt in
  {| drv_connect := fun _ e => (e, outcome bad_connect "connect");
     drv_cursor := fun _ e => (e, outcome bad_cursor "cursor");
     drv_execute := fun _ _ e =>
       if bad_statement then (e, Raise (DatabaseError 1064 "syntax error"))
       else (S e, Ok st);
     drv_executemany := fun _ _ e =>
       if bad_statement then (e, Raise (DatabaseError 1064 "syntax error"))
       else (S e, Ok st);
     drv_cursor_close := fun e => (e, outcome bad_cursor_close "cursor close");
     drv_close := fun e => (e, outcome bad_close "close") |}.

Definition names_state : cursor_state :=
  {| rowcount := 2;
     lastrowid := None;
     pending := Ok [TupleRow [VStr "app"]; TupleRow [VStr "mysql"]] |}.

(** A context with no [request_headers] whose request carries the header. *)
Definition ctx_via_request (h : string) : context :=
  {| request_headers := Missing;
     request_context :=
       Has (Some {| rc_request :=
         Has (Some {| req_headers :=
           Has {| hdr_truthy := true;
                  hdr_get := fun k =>
                    if k =? "Authorization" then Ok (Some h)
                    else Ok None |} |}) |}) |}.

(** * Properties *)

(** ** Strings *)

Module PyStrFacts.
Import PyStr.

Lemma lower_char_is_space (c : ascii) :
  Ascii.eqb (lower_char c) " " = Ascii.eqb c " ".
Proof.
  destruct c as [[] [] [] [] [] [] [] []]; reflexivity.
Qed.

Lemma count_lower_space (s : string) :
  count " " (lower s) = count " " s.
Proof.
  induction s as [|c r IH]; simpl; [reflexivity|].
  now rewrite lower_char_is_space, IH.
Qed.

Lemma lower_app (s t : string) : lower (s ++ t) = lower s ++ lower t.
Proof.
  induction s as [|c r IH]; simpl; [reflexivity|]. now rewrite IH.
Qed.

(** A string whose lower-cased form starts with [p] splits at [length p]
    into a part that lower-cases to [p] and a rest. *)
Lemma lower_startswith_inv (p s : string) :
  startswith p (lower s) = true ->
  exists a b, s = a ++ b /\ lower a = p.
Proof.
  revert s; induction p as [|x p IH]; intros s H.
  - exists "", s. now split.
  - destruct s as [|c s]; simpl in H; [discriminate|].
    apply andb_prop in H as [Hx Hp].
    apply Ascii.eqb_eq in Hx.
    destruct (IH _ Hp) as (a & b & -> & Ha).
    exists (String c a), b. simpl. now rewrite Ha, <- Hx.
Qed.

Lemma app_assoc (a b c : string) : (a ++ b) ++ c = a ++ (b ++ c).
Proof.
  induction a as [|x a IH]; simpl; [reflexivity|]. now rewrite IH.
Qed.

Lemma lower_snoc_space (a : string) (p : string) :
  lower a = p ++ " " ->
  exists a', a = a' ++ " " /\ lower a' = p.
Proof.
  revert a; induction p as [|x p IH]; intros a H.
  - destruct a as [|c a]; [discriminate|]. simpl in H.
    injection H as Hc Ha. destruct a; [|discriminate].
    exists "". split; [|reflexivity]. simpl. f_equal.
    apply Ascii.eqb_eq. rewrite <- lower_char_is_space, Hc. reflexivity.
  - destruct a as [|c a]; [discriminate|]. simpl in H.
    injection H as Hc Ha. destruct (IH _ Ha) as (a' & -> & Hl).
    exists (String c a'). simpl. now rewrite Hl, Hc.
Qed.

Lemma split_once_no_sep (sep : ascii) (a b : string) :
  count sep a = 0 ->
  split_once sep (a ++ String sep b) = [a; b].
Proof.
  induction a as [|c a IH]; simpl; intros H.
  - now rewrite Ascii.eqb_refl.
  - destruct (Ascii.eqb c sep); [discriminate|].
    now rewrite (IH H).
Qed.

Lemma replace_char_removes (c : ascii) (s : string) :
  count c (replace_char c "" s) = 0.
Proof.
  induction s as [|d r IH]; simpl; [reflexivity|].
  destruct (Ascii.eqb d c) eqn:Hd; simpl; [exact IH|].
  now rewrite Hd, IH.
Qed.

Lemma count_app (c : ascii) (s t : string) :
  count c (s ++ t) = count c s + count c t.
Proof.
  induction s as [|d r IH]; simpl; [reflexivity|]. rewrite IH. lia.
Qed.

End PyStrFacts.

(** ** The authorization gate *)

Section Auth.
Import PyStr PyStrFacts.

Lemma token_rejected_total (key : string) (cred : option string) :
  exists b, token_rejected key cred = Ok b.
Proof.
  unfold token_rejected.
  destruct cred as [t|]; [|now exists true].
  destruct (nonempty t); cbn [negb]; [|now exists true].
  destruct (startswith "bearer " (lower t)) eqn:Hp; cbn [negb];
    [|now exists true].
  destruct (lower_startswith_inv _ _ Hp) as (a & b & -> & Ha).
  destruct (lower_snoc_space a "bearer" Ha) as (a' & -> & Ha').
  rewrite app_assoc. cbn [append].
  rewrite split_once_no_sep.
  - cbn [nth_error]. eexists; reflexivity.
  - now rewrite <- count_lower_space, Ha'.
Qed.

Lemma token_accepted_iff (key : string) (cred : option string) :
  token_rejected key cred = Ok false <->
  exists h, cred = Some h /\ presents key h.
Proof.
  unfold token_rejected. split.
  - destruct cred as [t|]; [|discriminate].
    destruct (nonempty t); cbn [negb]; [|discriminate].
    destruct (startswith "bearer " (lower t)) eqn:Hp; cbn [negb];
      [|discriminate].
    destruct (lower_startswith_inv _ _ Hp) as (a & b & -> & Ha).
    destruct (lower_snoc_space a "bearer" Ha) as (a' & -> & Ha').
    rewrite app_assoc. cbn [append].
    rewrite split_once_no_sep
      by now rewrite <- count_lower_space, Ha'.
    cbn [nth_error]. intros H. injection H as H.
    apply negb_false_iff, String.eqb_eq in H.
    eexists; split; [reflexivity|]. now exists a', b.
  - intros (h & -> & scheme & rest & -> & Hs & Hr).
    assert (Hne : nonempty (scheme ++ " " ++ rest) = true)
      by (destruct scheme; [discriminate|reflexivity]).
    rewrite Hne. cbn [negb].
    rewrite lower_app, Hs.
    change (startswith "bearer " ("bearer" ++ lower (" " ++ rest)))
      with true.
    cbn [negb append].
    rewrite split_once_no_sep
      by now rewrite <- count_lower_space, Hs.
    cbn [nth_error]. now rewrite Hr, String.eqb_refl.
Qed.

Lemma require_auth_is_authorize (conf : config) (ctx : context) :
  _require_auth conf ctx = authorize (API_KEY conf) (presented_token ctx).
Proof. reflexivity. Qed.

Lemma authorize_outcomes (secret cred : option string) :
  authorize secret cred = Ok tt \/ authorize secret cred = Raise unauthorized.
Proof.
  unfold authorize. destruct (truthy secret) eqn:Ht; simpl; [|now left].
  destruct secret as [key|]; [|now left].
  destruct (token_rejected_total key cred) as [[] ->]; simpl; auto.
Qed.

End Auth.

(** A handler whose authorization step raises stops there: the error is the
    outcome and the world is untouched. *)
Lemma handle_denied (E : Type) (drv : driver E) (conf : config)
  (ctx : context) (op : operation) (w : world E) (e : pyexc) :
  _require_auth conf ctx = Raise e ->
  handle drv conf ctx op w = (Raise e, w).
Proof.
  intros H.
  destruct op; unfold handle, fmap, ping, list_databases, list_tables,
    describe_table, run_sql, create_database, drop_database, create_table,
    drop_table, insert_row, execute_many, require_auth, bind, lift;
    rewrite H; reflexivity.
Qed.

(** C3, the claim as worded, fails: a credential whose scheme is written in
    lower case is admitted, though it is not [Bearer <token>] with the token
    equal to the secret. *)
Lemma authorize_admits_lowercase_scheme :
  authorize (Some "s3cret") (Some "bearer s3cret") = Ok tt
  /\ spec_authorize (Some "s3cret") (Some "bearer s3cret") = false.
Proof. split; reflexivity. Qed.

(** C3, amended: with no secret, or an empty one, the check always allows;
    with a secret it allows exactly when a credential is present, starts with
    [bearer] in any letter case followed by a space, and the rest, with
    surrounding white space removed, equals the secret; in every other case
    it denies with the Unauthorized error. *)
Theorem authorize_allows_iff (secret cred : option string) :
  (authorize secret cred = Ok tt <->
   PyStr.truthy secret = false
   \/ exists key h, secret = Some key /\ cred = Some h /\ presents key h)
  /\ (authorize secret cred = Ok tt
      \/ authorize secret cred = Raise unauthorized).
Proof.
  split; [|apply authorize_outcomes].
  unfold authorize.
  destruct (PyStr.truthy secret) eqn:Ht; cbn [negb].
  - destruct secret as [key|]; [|discriminate].
    destruct (token_rejected_total key cred) as [b Hb].
    pose proof (token_accepted_iff key cred) as Hiff.
    rewrite Hb in *. cbn [res_bind]. split.
    + destruct b; [discriminate|]. intros _. right.
      destruct (proj1 Hiff eq_refl) as (h & -> & Hp). now exists key, h.
    + intros [Hf | (k & h & Hk & -> & Hp)]; [discriminate|].
      injection Hk as <-.
      assert (Hb' : Ok b = Ok false) by (apply Hiff; now exists h).
      injection Hb' as ->. reflexivity.
  - split; [now left | reflexivity].
Qed.

(** C9: when a secret is configured and reading the credential from the
    context raises, the credential counts as absent and the call is denied
    with the Unauthorized error, in [_require_auth] and so in every
    operation, which then touches neither the log nor the engine. *)
Theorem extraction_failure_denies (E : Type) (drv : driver E)
  (conf : config) (ctx : context) (e : pyexc) (op : operation)
  (w : world E) :
  PyStr.truthy (API_KEY conf) = true ->
  read_token ctx = Raise e ->
  presented_token ctx = None
  /\ _require_auth conf ctx = Raise unauthorized
  /\ handle drv conf ctx op w = (Raise unauthorized, w).
Proof.
  intros Hk He.
  assert (Hd : presented_token ctx = None
               /\ _require_auth conf ctx = Raise unauthorized).
  { unfold _require_auth, presented_token.
    rewrite Hk, He. cbn [negb].
    destruct (API_KEY conf) as [key|]; [|discriminate].
    split; reflexivity. }
  destruct Hd as [Hp Hr]. repeat split; try assumption.
  now apply handle_denied.
Qed.

Lemma extraction_failure_denies_witness :
  presented_token ctx_faulty = None
  /\ _require_auth sample_conf ctx_faulty = Raise unauthorized
  /\ handle (sample_driver false) sample_conf ctx_faulty
        (RunSql "SELECT 1" None) sample_world
      = (Raise unauthorized, sample_world).
Proof.
  apply (extraction_failure_denies nat (sample_driver false) sample_conf
           ctx_faulty (OtherException "no request in scope"));
    reflexivity.
Defined.

(** ** Schema resolution *)

(** C8, the claim as worded, fails: an override that is given but empty is
    not the schema the connection is opened with. *)
Lemma empty_override_not_used :
  database (connect_cfg sample_conf (Some "")) = Some "app"
  /\ database (connect_cfg sample_conf (Some ""))
     <> spec_resolve_schema (Some "") (DEFAULT_DB sample_conf).
Proof. split; [reflexivity | discriminate]. Qed.

(** C8, amended: [_connect] calls the driver once, with the schema resolved
    in this order: the per-call override if it is given and not empty, else
    the configured default schema if set, else none. *)
Theorem connect_schema_resolution (E : Type) (drv : driver E)
  (conf : config) (db : option string) (w : world E) :
  log (snd (_connect E drv conf db w))
  = (log w ++ [EvConnect (opens (log w)) (connect_cfg conf db)])%list
  /\ database (connect_cfg conf db)
     = match db with
       | Some (String c s) => Some (String c s)
       | _ => DEFAULT_DB conf
       end.
Proof.
  split.
  - unfold _connect, bind, get_log, call, ret.
    destruct (drv_connect drv (connect_cfg conf db) (eng w)) as [e' [[]|x]];
      reflexivity.
  - destruct db as [[|c s]|]; reflexivity.
Qed.

(** C10: an override that is the empty string is coalesced away: the
    connection is opened with the configured default schema, by the same
    driver call as with no override. *)
Theorem empty_override_is_no_override (E : Type) (drv : driver E)
  (conf : config) (w : world E) :
  _connect E drv conf (Some "") w = _connect E drv conf None w
  /\ database (connect_cfg conf (Some "")) = DEFAULT_DB conf
  /\ log (snd (_connect E drv conf (Some "") w))
     = (log w ++ [EvConnect (opens (log w)) (connect_cfg conf None)])%list.
Proof.
  repeat split.
  unfold _connect, bind, get_log, call, ret.
  change (connect_cfg conf (Some "")) with (connect_cfg conf None).
  destruct (drv_connect drv (connect_cfg conf None) (eng w)) as [e' [[]|x]];
    reflexivity.
Qed.

(** ** Authorization comes first *)

Lemma authorize_denies (key : string) (cred : option string) :
  PyStr.nonempty key = true ->
  (cred = None \/ exists h, cred = Some h /\ ~ presents key h) ->
  authorize (Some key) cred = Raise unauthorized.
Proof.
  intros Hk Hc. unfold authorize. cbn [PyStr.truthy]. rewrite Hk. cbn [negb].
  destruct (token_rejected_total key cred) as [b Hb]. rewrite Hb.
  destruct b; [reflexivity|].
  apply token_accepted_iff in Hb as (h & Hh & Hp).
  destruct Hc as [-> | (h' & -> & Hn)]; [discriminate|].
  injection Hh as <-. contradiction.
Qed.

(** A wrong token does not present the secret. *)
Lemma guess_does_not_present : ~ presents "s3cret" "Bearer guess".
Proof.
  intros Hp.
  assert (H : token_rejected "s3cret" (Some "Bearer guess") = Ok false)
    by (apply token_accepted_iff; now exists "Bearer guess").
  vm_compute in H. discriminate H.
Qed.

(** C2: for every operation of the catalog, [ping] included, when a secret is
    configured and the credential is absent or does not present it, the call
    fails with the Unauthorized error before any driver call: the world is
    unchanged, so no connection is opened. *)
Theorem unauthorized_call_opens_nothing (E : Type) (drv : driver E)
  (conf : config) (ctx : context) (op : operation) (w : world E)
  (key : string) :
  API_KEY conf = Some key ->
  PyStr.nonempty key = true ->
  (presented_token ctx = None
   \/ exists h, presented_token ctx = Some h /\ ~ presents key h) ->
  handle drv conf ctx op w = (Raise unauthorized, w)
  /\ opens (log (snd (handle drv conf ctx op w))) = opens (log w)
  /\ log (snd (handle drv conf ctx op w)) = log w.
Proof.
  intros Hs Hk Hc.
  assert (H : handle drv conf ctx op w = (Raise unauthorized, w)).
  { apply handle_denied. rewrite require_auth_is_authorize, Hs.
    now apply authorize_denies. }
  rewrite H. repeat split.
Qed.

Lemma unauthorized_call_opens_nothing_witness :
  handle (sample_driver false) sample_conf (ctx_with "Bearer guess")
    (InsertRow "t" [("name", VStr "a")] None) sample_world
  = (Raise unauthorized, sample_world)
  /\ opens (log (snd (handle (sample_driver false) sample_conf
                        (ctx_with "Bearer guess")
                        (InsertRow "t" [("name", VStr "a")] None)
                        sample_world)))
     = opens (log sample_world)
  /\ log (snd (handle (sample_driver false) sample_conf
                 (ctx_with "Bearer guess")
                 (InsertRow "t" [("name", VStr "a")] None) sample_world))
     = log sample_world.
Proof.
  apply (unauthorized_call_opens_nothing nat (sample_driver false)
           sample_conf (ctx_with "Bearer guess")
           (InsertRow "t" [("name", VStr "a")] None) sample_world "s3cret").
  - reflexivity.
  - reflexivity.
  - right. exists "Bearer guess". split; [reflexivity|].
    exact guess_does_not_present.
Defined.

(** A [request_headers] property that raises [AttributeError] is no
    obstacle: [getattr] falls back to its default and the credential is read
    from the request, so the right token is admitted and the call goes on to
    the driver. *)
Example attribute_error_falls_back :
  presented_token (ctx_attribute_error "Bearer s3cret") = Some "Bearer s3cret"
  /\ _require_auth sample_conf (ctx_attribute_error "Bearer s3cret") = Ok tt
  /\ opens (log (snd (handle (sample_driver false) sample_conf
                        (ctx_attribute_error "Bearer s3cret")
                        ListDatabases sample_world))) = 1.
Proof. repeat split. Qed.

(** A wrong token on a data operation: denied, nothing opened. *)
Example wrong_token_denied :
  handle (sample_driver false) sample_conf (ctx_with "Bearer guess")
    (InsertRow "t" [("name", VStr "a")] None) sample_world
  = (Raise unauthorized, sample_world).
Proof. reflexivity. Qed.

(** The right token, in either header spelling the check accepts. *)
Example right_token_admitted :
  _require_auth sample_conf (ctx_with "Bearer s3cret") = Ok tt
  /\ _require_auth sample_conf (ctx_with "BEARER   s3cret ") = Ok tt.
Proof. split; reflexivity. Qed.

(** ** Generated statements *)

Section Statements.
Import PyStr PyStrFacts.

Lemma strip_backticks_keeps_others (x : string) :
  strip_backticks x = keep_others backtick x.
Proof.
  unfold strip_backticks, keep_others.
  induction x as [|c r IH]; [reflexivity|].
  cbn [replace_char list_ascii_of_string filter].
  destruct (Ascii.eqb c backtick); cbn [negb]; [exact IH|].
  cbn [string_of_list_ascii]. now rewrite IH.
Qed.

Lemma count_quote_ident (x : string) : count backtick (quote_ident x) = 2.
Proof.
  unfold quote_ident, strip_backticks.
  rewrite !count_app, replace_char_removes. reflexivity.
Qed.

Lemma count_join (c : ascii) (sep : string) (k : nat) (l : list string) :
  count c sep = 0 ->
  Forall (fun x => count c x = k) l ->
  count c (join sep l) = k * List.length l.
Proof.
  intros Hsep Hl. unfold join.
  induction Hl as [|x l Hx Hl IH]; [cbn; lia|].
  destruct l as [|y l'].
  - cbn [concat List.length]. lia.
  - change (concat sep (x :: y :: l'))
      with (x ++ sep ++ concat sep (y :: l')).
    rewrite !count_app, Hsep, Hx, IH. cbn [List.length]. lia.
Qed.

Lemma count_insert_cols (data : record) :
  count backtick (insert_cols data) = 2 * List.length data.
Proof.
  unfold insert_cols, keys.
  rewrite (count_join backtick ", " 2); [now rewrite !length_map|reflexivity|].
  apply Forall_forall. intros x Hx.
  apply in_map_iff in Hx as (k & <- & _). apply count_quote_ident.
Qed.

Lemma count_insert_placeholders (data : record) :
  count backtick (insert_placeholders data) = 0.
Proof.
  unfold insert_placeholders.
  rewrite (count_join backtick ", " 0); [lia|reflexivity|].
  apply Forall_forall. intros x Hx. apply repeat_spec in Hx. now subst.
Qed.

Lemma count_insert_sql (table : string) (data : record) :
  count backtick (insert_sql table data) = 2 + 2 * List.length data.
Proof.
  unfold insert_sql.
  rewrite !count_app, count_quote_ident, count_insert_cols,
    count_insert_placeholders.
  change (count backtick "INSERT INTO ") with 0.
  change (count backtick " (") with 0.
  change (count backtick ") VALUES (") with 0.
  change (count backtick ")") with 0.
  lia.
Qed.

Lemma insert_sql_ignores_values (table : string) (data : record) :
  insert_sql table data = insert_sql table (blank_values data).
Proof.
  assert (Hk : keys (blank_values data) = keys data).
  { unfold keys, blank_values. rewrite map_map. now apply map_ext. }
  assert (Hl : List.length (blank_values data) = List.length data)
    by apply length_map.
  unfold insert_sql, insert_cols, insert_placeholders.
  now rewrite Hk, Hl.
Qed.

Lemma repeat_as_map {A B} (b : B) (l : list A) :
  repeat b (List.length l) = map (fun _ => b) l.
Proof.
  induction l as [|x r IH]; [reflexivity|]. cbn. now rewrite IH.
Qed.

End Statements.

(** ** What the handlers hand to the driver *)

Ltac unfold_handlers :=
  unfold ping, list_databases, list_tables, describe_table, run_sql,
    create_database, drop_database, create_table, drop_table, insert_row,
    execute_many, require_auth, _connect, cursor, execute, executemany,
    fetchall, cursor_close, con_close.

Ltac mred :=
  cbv beta iota zeta
      delta [bind call ret lift get_log fmap try_finally suppress
             except_interface];
  cbn [fst snd log eng].

(** Case analysis on the next driver call of the goal. *)
Ltac driver_step :=
  match goal with
  | |- context [drv_connect ?d ?a ?e] =>
      destruct (drv_connect d a e) as [? [[]|?]]
  | |- context [drv_cursor ?d ?a ?e] =>
      destruct (drv_cursor d a e) as [? [[]|?]]
  | |- context [drv_execute ?d ?s ?p ?e] =>
      destruct (drv_execute d s p e) as [? [?|?]]
  | |- context [drv_executemany ?d ?s ?p ?e] =>
      destruct (drv_executemany d s p e) as [? [?|?]]
  | |- context [drv_cursor_close ?d ?e] =>
      destruct (drv_cursor_close d e) as [? [[]|?]]
  | |- context [drv_close ?d ?e] =>
      destruct (drv_close d e) as [? [[]|?]]
  end; mred.

Ltac close_trace :=
  rewrite <- ?app_assoc;
  eexists; split; [reflexivity|];
  first [left; reflexivity | right; reflexivity].

Ltac trace_cases conf ctx :=
  intros w; unfold_handlers; mred;
  destruct (_require_auth conf ctx) as [[]|?]; mred;
  [ repeat driver_step; close_trace
  | exists []; rewrite app_nil_r; split; [reflexivity | left; reflexivity] ].

Section Traces.
Context {E : Type} (drv : driver E) (conf : config) (ctx : context).

Lemma create_database_runs (name : string) :
  runs_at_most (create_database E drv conf ctx name)
    (create_database_sql name) None.
Proof. trace_cases conf ctx. Qed.

Lemma drop_database_runs (name : string) :
  runs_at_most (drop_database E drv conf ctx name)
    (drop_database_sql name) None.
Proof. trace_cases conf ctx. Qed.

Lemma drop_table_runs (table : string) (db : option string) :
  runs_at_most (drop_table E drv conf ctx table db)
    (drop_table_sql table) None.
Proof. trace_cases conf ctx. Qed.

Lemma insert_row_runs (table : string) (data : record)
  (db : option string) :
  runs_at_most (insert_row E drv conf ctx table data db)
    (insert_sql table data) (Some (values data)).
Proof. trace_cases conf ctx. Qed.

Lemma describe_table_runs (table : string) (db : option string) :
  runs_at_most (describe_table E drv conf ctx table db)
    (describe_sql table) None.
Proof.
  intros w; unfold_handlers; mred.
  destruct (_require_auth conf ctx) as [[]|?]; mred.
  2:{ exists []. rewrite app_nil_r. split; [reflexivity | now left]. }
  repeat driver_step; try close_trace;
  match goal with
  | |- context [pending ?c] => destruct (pending c) as [rows|x]
  end; mred; close_trace.
Qed.

End Traces.

(** C4: every identifier a structured operation embeds is embedded without
    its backticks, between two quoting backticks, so the statement holds the
    quoting backticks and no other; the handlers hand the driver no other
    statement text; the values of [insert_row] do not enter the text (it is
    the same with every value blanked) and go to the driver as
    parameters. *)
Theorem structured_identifiers_sanitized (E : Type) (drv : driver E)
  (conf : config) (ctx : context) (ident : string) (data : record)
  (db : option string) :
  (strip_backticks ident = keep_others backtick ident
   /\ PyStr.count backtick (strip_backticks ident) = 0)
  /\ (describe_sql ident = "DESCRIBE `" ++ strip_backticks ident ++ "`"
      /\ create_database_sql ident
         = "CREATE DATABASE `" ++ strip_backticks ident ++ "`"
      /\ drop_database_sql ident
         = "DROP DATABASE `" ++ strip_backticks ident ++ "`"
      /\ drop_table_sql ident
         = "DROP TABLE `" ++ strip_backticks ident ++ "`"
      /\ insert_sql ident data
         = "INSERT INTO `" ++ strip_backticks ident ++ "` ("
           ++ PyStr.join ", "
                (map (fun c => "`" ++ strip_backticks c ++ "`") (keys data))
           ++ ") VALUES (" ++ insert_placeholders data ++ ")")
  /\ (PyStr.count backtick (describe_sql ident) = 2
      /\ PyStr.count backtick (create_database_sql ident) = 2
      /\ PyStr.count backtick (drop_database_sql ident) = 2
      /\ PyStr.count backtick (drop_table_sql ident) = 2
      /\ PyStr.count backtick (insert_sql ident data)
         = 2 + 2 * List.length data)
  /\ (insert_sql ident data = insert_sql ident (blank_values data)
      /\ PyStr.count backtick (insert_placeholders data) = 0)
  /\ (runs_at_most (describe_table E drv conf ctx ident db)
        (describe_sql ident) None
      /\ runs_at_most (create_database E drv conf ctx ident)
           (create_database_sql ident) None
      /\ runs_at_most (drop_database E drv conf ctx ident)
           (drop_database_sql ident) None
      /\ runs_at_most (drop_table E drv conf ctx ident db)
           (drop_table_sql ident) None
      /\ runs_at_most (insert_row E drv conf ctx ident data db)
           (insert_sql ident data) (Some (values data))).
Proof.
  assert (Hq : forall pre, PyStr.count backtick pre = 0 ->
             PyStr.count backtick (pre ++ quote_ident ident) = 2).
  { intros pre Hpre.
    now rewrite PyStrFacts.count_app, Hpre, count_quote_ident. }
  split; [split|split; [|split; [|split; [split|]]]].
  - apply strip_backticks_keeps_others.
  - apply PyStrFacts.replace_char_removes.
  - unfold describe_sql, create_database_sql, drop_database_sql,
      drop_table_sql, insert_sql, insert_cols, quote_ident.
    repeat split.
    cbn [append]. rewrite !PyStrFacts.app_assoc. reflexivity.
  - unfold describe_sql, create_database_sql, drop_database_sql,
      drop_table_sql.
    repeat split; try (apply Hq; reflexivity).
    apply count_insert_sql.
  - apply insert_sql_ignores_values.
  - apply count_insert_placeholders.
  - repeat split.
    + apply describe_table_runs.
    + apply create_database_runs.
    + apply drop_database_runs.
    + apply drop_table_runs.
    + apply insert_row_runs.
Qed.

(** ** Structured insert *)

(** C6: when the call is authorized and the driver raises nowhere,
    [insert_row] opens one connection, runs on it the one statement
    [INSERT INTO `table` (`c1`, ..) VALUES (%s, ..)], with the columns in the
    record's order, each identifier reduced to its characters other than
    the backtick and put between two backticks (so the text holds those
    quoting backticks and no other), one placeholder per entry, and the
    record's values as parameters in the same order; it closes the
    connection and returns the [lastrowid] the cursor reports. *)
Theorem insert_row_builds_insert (E : Type) (drv : driver E)
  (conf : config) (ctx : context) (table : string) (data : record)
  (db : option string) (w : world E) (st : cursor_state) :
  _require_auth conf ctx = Ok tt ->
  healthy drv ->
  snd (drv_execute drv (insert_sql table data) (Some (values data))
         (engine_at_execute drv conf db false w)) = Ok st ->
  fst (insert_row E drv conf ctx table data db w) = Ok (lastrowid st)
  /\ log (snd (insert_row E drv conf ctx table data db w))
     = (log w ++
        [EvConnect (opens (log w)) (connect_cfg conf db);
         EvCursor (opens (log w)) false;
         EvExecute (opens (log w))
           ("INSERT INTO `" ++ keep_others backtick table ++ "` ("
            ++ PyStr.join ", "
                 (map (fun kv => "`" ++ keep_others backtick (fst kv) ++ "`")
                    data)
            ++ ") VALUES (" ++ PyStr.join ", " (map (fun _ => "%s") data)
            ++ ")")%string
           (Some (map snd data));
         EvCursorClose (opens (log w));
         EvClose (opens (log w))])%list
  /\ PyStr.count backtick (insert_sql table data)
     = 2 + 2 * List.length data.
Proof.
  intros Hauth (Hc & Hk & Hcc & Hcl) Hex.
  unfold engine_at_execute in Hex.
  assert (Htext : insert_sql table data
     = "INSERT INTO `" ++ keep_others backtick table ++ "` ("
       ++ PyStr.join ", "
            (map (fun kv => "`" ++ keep_others backtick (fst kv) ++ "`") data)
       ++ ") VALUES (" ++ PyStr.join ", " (map (fun _ => "%s") data) ++ ")").
  { unfold insert_sql, insert_cols, insert_placeholders, keys, quote_ident.
    rewrite map_map, repeat_as_map, strip_backticks_keeps_others.
    rewrite (map_ext (fun x => "`" ++ strip_backticks (fst x) ++ "`")
               (fun kv => "`" ++ keep_others backtick (fst kv) ++ "`"))
      by (intros kv; now rewrite strip_backticks_keeps_others).
    cbn [append]. rewrite !PyStrFacts.app_assoc. reflexivity. }
  rewrite <- Htext.
  unfold_handlers. mred. rewrite Hauth. mred.
  pose proof (Hc (connect_cfg conf db) (eng w)) as H1. revert H1 Hex.
  destruct (drv_connect drv (connect_cfg conf db) (eng w)) as [e1 r1].
  cbn [fst snd]. intros -> Hex. mred.
  pose proof (Hk false e1) as H2. revert H2 Hex.
  destruct (drv_cursor drv false e1) as [e2 r2].
  cbn [fst snd]. intros -> Hex. mred.
  revert Hex.
  destruct (drv_execute drv (insert_sql table data) (Some (values data)) e2)
    as [e3 r3].
  cbn [snd]. intros ->. mred.
  pose proof (Hcc e3) as H4. revert H4.
  destruct (drv_cursor_close drv e3) as [e4 r4].
  cbn [snd]. intros ->. mred.
  pose proof (Hcl e4) as H5. revert H5.
  destruct (drv_close drv e4) as [e5 r5].
  cbn [snd]. intros ->. mred.
  rewrite <- !app_assoc. repeat split. apply count_insert_sql.
Qed.

Lemma insert_row_builds_insert_witness :
  fst (insert_row nat (sample_driver false) open_conf ctx_bare "t`; x"
         [("na`me", VStr "a"); ("age", VInt 5)] None sample_world)
  = Ok (Some 1%Z)
  /\ log (snd (insert_row nat (sample_driver false) open_conf ctx_bare
                 "t`; x" [("na`me", VStr "a"); ("age", VInt 5)] None
                 sample_world))
     = [EvConnect 0 (connect_cfg open_conf None);
        EvCursor 0 false;
        EvExecute 0 "INSERT INTO `t; x` (`name`, `age`) VALUES (%s, %s)"
          (Some [VStr "a"; VInt 5]);
        EvCursorClose 0;
        EvClose 0]
  /\ PyStr.count backtick
       (insert_sql "t`; x" [("na`me", VStr "a"); ("age", VInt 5)]) = 6.
Proof.
  apply (insert_row_builds_insert nat (sample_driver false) open_conf
           ctx_bare "t`; x" [("na`me", VStr "a"); ("age", VInt 5)] None
           sample_world
           {| rowcount := 2; lastrowid := Some 1%Z;
              pending :=
                Raise (InterfaceError "No result set to fetch from.") |}).
  - reflexivity.
  - repeat split.
  - reflexivity.
Defined.

(** The identifier of the data model's example loses its backtick. *)
Example evil_identifier_sanitized :
  strip_backticks "evil`; DROP TABLE x" = "evil; DROP TABLE x"
  /\ drop_table_sql "evil`; DROP TABLE x" = "DROP TABLE `evil; DROP TABLE x`"
  /\ insert_sql "t`" [("a`b", VStr "x`y")]
     = "INSERT INTO `t` (`ab`) VALUES (%s)".
Proof. repeat split. Qed.

(** ** Result normalization *)

(** C5, the claim as worded, fails: a statement that returns rows while the
    cursor reports a row id comes back with both, the row id is not
    dropped. *)
Lemma run_sql_keeps_rowid_with_rows :
  fst (run_sql nat (answering_driver rowid_state) open_conf ctx_bare
         "INSERT INTO t (name) VALUES ('a') RETURNING id" None sample_world)
  = Ok {| r_rowcount := 1; r_lastrowid := Some 7%Z;
          r_rows := [DictRow [("id", VInt 7)]] |}
  /\ r_lastrowid {| r_rowcount := 1; r_lastrowid := Some 7%Z;
                    r_rows := [DictRow [("id", VInt 7)]] |} <> None.
Proof. split; [reflexivity | discriminate]. Qed.

(** C5, amended: when the call is authorized, the connection and the cursor
    open and the statement runs, [run_sql] returns the three fields whatever
    the statement; [rowcount] and [lastrowid] are the cursor's, copied as the
    driver reports them in both cases; with a row set, [rows] is what
    [fetchall] returns; with no result set, that is when [fetchall] raises
    [InterfaceError], [rows] is empty and nothing is raised. *)
Theorem run_sql_normalizes (E : Type) (drv : driver E) (conf : config)
  (ctx : context) (sql : string) (db : option string) (w : world E)
  (st : cursor_state) :
  _require_auth conf ctx = Ok tt ->
  opens_cleanly drv conf db true w ->
  snd (drv_execute drv sql None (engine_at_execute drv conf db true w))
  = Ok st ->
  fst (run_sql E drv conf ctx sql db w)
  = match pending st with
    | Ok rows =>
        Ok {| r_rowcount := rowcount st; r_lastrowid := lastrowid st;
              r_rows := rows |}
    | Raise (InterfaceError _) =>
        Ok {| r_rowcount := rowcount st; r_lastrowid := lastrowid st;
              r_rows := [] |}
    | Raise e => Raise e
    end.
Proof.
  intros Hauth [H1 H2] Hex.
  unfold engine_at_execute in Hex.
  unfold_handlers. mred. rewrite Hauth. mred.
  revert H1 H2 Hex.
  destruct (drv_connect drv (connect_cfg conf db) (eng w)) as [e1 r1].
  cbn [fst snd]. intros -> H2 Hex. mred.
  revert H2 Hex.
  destruct (drv_cursor drv true e1) as [e2 r2].
  cbn [fst snd]. intros -> Hex. mred.
  revert Hex.
  destruct (drv_execute drv sql None e2) as [e3 r3].
  cbn [snd]. intros ->. mred.
  destruct (pending st) as [rows|x]; mred.
  - destruct (drv_cursor_close drv e3) as [e4 [[]|y]]; mred;
      [destruct (drv_close drv e4) as [e5 [[]|z]]|]; reflexivity.
  - destruct x; mred;
      (destruct (drv_cursor_close drv e3) as [e4 [[]|y]]; mred;
       [destruct (drv_close drv e4) as [e5 [[]|z]]|]; reflexivity).
Qed.

Lemma run_sql_normalizes_witness :
  fst (run_sql nat (answering_driver alter_state) open_conf ctx_bare
         "ALTER TABLE t ADD COLUMN c INT" None sample_world)
  = Ok {| r_rowcount := 0; r_lastrowid := Some 0%Z; r_rows := [] |}.
Proof.
  apply (run_sql_normalizes nat (answering_driver alter_state) open_conf
           ctx_bare "ALTER TABLE t ADD COLUMN c INT" None sample_world
           alter_state).
  - reflexivity.
  - split; reflexivity.
  - reflexivity.
Defined.

(** A statement with a row set: the rows as fetched. *)
Example run_sql_select :
  fst (run_sql nat (answering_driver select_state) open_conf ctx_bare
         "SELECT id, name FROM t" None sample_world)
  = Ok {| r_rowcount := 2; r_lastrowid := None;
          r_rows := [DictRow [("id", VInt 1); ("name", VStr "a")];
                     DictRow [("id", VInt 2); ("name", VStr "b")]] |}.
Proof. reflexivity. Qed.

(** A statement with no result set: empty [rows], the engine's counts. *)
Example run_sql_alter :
  run_sql nat (answering_driver alter_state) open_conf ctx_bare
    "ALTER TABLE t ADD COLUMN c INT" None sample_world
  = (Ok {| r_rowcount := 0; r_lastrowid := Some 0%Z; r_rows := [] |},
     {| log := [EvConnect 0 (connect_cfg open_conf None);
                EvCursor 0 true;
                EvExecute 0 "ALTER TABLE t ADD COLUMN c INT" None;
                EvFetchall 0;
                EvCursorClose 0;
                EvClose 0];
        eng := 1 |}).
Proof. reflexivity. Qed.

(** ** Bulk execution *)

Lemma each_rowcount_length {E}
  (exec : string -> option (list pyval) -> E -> E * res cursor_state)
  (sql : string) (params : list (list pyval)) :
  forall (e : E) (counts : list Z),
    each_rowcount exec sql params e = Ok counts ->
    List.length counts = List.length params.
Proof.
  induction params as [|p rest IH]; intros e counts H; cbn in H.
  - now injection H as <-.
  - destruct (exec sql (Some p) e) as [e' [st|x]]; [|discriminate].
    destruct (each_rowcount exec sql rest e') as [l|x] eqn:Hl;
      [|discriminate].
    cbn in H. injection H as <-. cbn. f_equal. now apply (IH e').
Qed.

(** The loop ends on a cursor whose [rowcount] is the start value plus the
    sum of the runs' counts. *)
Lemma run_each_sum {E}
  (exec : string -> option (list pyval) -> E -> E * res cursor_state)
  (sql : string) (params : list (list pyval)) :
  forall (acc : Z) (e : E) (counts : list Z),
    each_rowcount exec sql params e = Ok counts ->
    exists e' st,
      run_each exec sql params acc e = (e', Ok st)
      /\ rowcount st = (acc + sum_counts counts)%Z.
Proof.
  induction params as [|p rest IH]; intros acc e counts H; cbn in H.
  - injection H as <-. cbn [run_each]. eexists _, _.
    split; [reflexivity|]. cbn [rowcount sum_counts fold_right]. lia.
  - cbn [run_each].
    destruct (exec sql (Some p) e) as [e' [st|x]]; [|discriminate].
    destruct (each_rowcount exec sql rest e') as [l|x] eqn:Hl;
      [|discriminate].
    cbn in H. injection H as <-.
    destruct (IH (acc + rowcount st)%Z e' l Hl) as (e2 & st2 & Hr & Hs).
    exists e2, st2. split; [exact Hr|].
    rewrite Hs. unfold sum_counts. cbn [fold_right]. lia.
Qed.

(** C7: when the call is authorized, the driver raises nowhere and its
    [executemany] runs the template once per tuple, [execute_many] opens one
    connection, hands the template and the whole sequence to that
    connection's cursor in one [executemany] call, closes the connection,
    and returns the sum of the affected-row counts of the runs, one per
    tuple. *)
Theorem execute_many_sums_rowcounts (E : Type) (drv : driver E)
  (conf : config) (ctx : context) (sql : string)
  (params : list (list pyval)) (db : option string) (w : world E)
  (counts : list Z) :
  _require_auth conf ctx = Ok tt ->
  healthy drv ->
  executemany_per_tuple drv ->
  each_rowcount (drv_execute drv) sql params
    (engine_at_execute drv conf db false w) = Ok counts ->
  fst (execute_many E drv conf ctx sql params db w) = Ok (sum_counts counts)
  /\ List.length counts = List.length params
  /\ log (snd (execute_many E drv conf ctx sql params db w))
     = (log w ++
        [EvConnect (opens (log w)) (connect_cfg conf db);
         EvCursor (opens (log w)) false;
         EvExecuteMany (opens (log w)) sql params;
         EvCursorClose (opens (log w));
         EvClose (opens (log w))])%list.
Proof.
  intros Hauth (Hc & Hk & Hcc & Hcl) Hmany Hex.
  pose proof (each_rowcount_length _ _ _ _ _ Hex) as Hlen.
  unfold engine_at_execute in Hex.
  unfold_handlers. mred. rewrite Hauth. mred.
  pose proof (Hc (connect_cfg conf db) (eng w)) as H1. revert H1 Hex.
  destruct (drv_connect drv (connect_cfg conf db) (eng w)) as [e1 r1].
  cbn [fst snd]. intros -> Hex. mred.
  pose proof (Hk false e1) as H2. revert H2 Hex.
  destruct (drv_cursor drv false e1) as [e2 r2].
  cbn [fst snd]. intros -> Hex. mred.
  rewrite Hmany.
  destruct (run_each_sum _ _ _ 0%Z _ _ Hex) as (e3 & st & -> & Hs). mred.
  pose proof (Hcc e3) as H4. revert H4.
  destruct (drv_cursor_close drv e3) as [e4 r4].
  cbn [snd]. intros ->. mred.
  pose proof (Hcl e4) as H5. revert H5.
  destruct (drv_close drv e4) as [e5 r5].
  cbn [snd]. intros ->. mred.
  rewrite <- !app_assoc, Hs. repeat split. exact Hlen.
Qed.

Lemma execute_many_sums_rowcounts_witness :
  fst (execute_many nat (sample_driver false) open_conf ctx_bare
         "UPDATE t SET x=%s WHERE id=%s"
         [[VInt 1; VInt 10]; [VInt 2; VInt 20]] None sample_world)
  = Ok (sum_counts [2%Z; 2%Z])
  /\ List.length [2%Z; 2%Z]
     = List.length [[VInt 1; VInt 10]; [VInt 2; VInt 20]]
  /\ log (snd (execute_many nat (sample_driver false) open_conf ctx_bare
                 "UPDATE t SET x=%s WHERE id=%s"
                 [[VInt 1; VInt 10]; [VInt 2; VInt 20]] None sample_world))
     = [EvConnect 0 (connect_cfg open_conf None);
        EvCursor 0 false;
        EvExecuteMany 0 "UPDATE t SET x=%s WHERE id=%s"
          [[VInt 1; VInt 10]; [VInt 2; VInt 20]];
        EvCursorClose 0;
        EvClose 0].
Proof.
  apply (execute_many_sums_rowcounts nat (sample_driver false) open_conf
           ctx_bare "UPDATE t SET x=%s WHERE id=%s"
           [[VInt 1; VInt 10]; [VInt 2; VInt 20]] None sample_world
           [2%Z; 2%Z]).
  - reflexivity.
  - repeat split.
  - intros sql params e. reflexivity.
  - reflexivity.
Defined.

(** ** The connection on the error path *)

Lemma closes_app (l l' : list event) :
  closes (l ++ l') = closes l + closes l'.
Proof. unfold closes. now rewrite filter_app, length_app. Qed.

Lemma opens_app (l l' : list event) :
  opens (l ++ l') = opens l + opens l'.
Proof. unfold opens. now rewrite filter_app, length_app. Qed.

(** X12: [run_sql] closes in its [finally]: once the connection and the
    cursor are open, [con.close()] is called once, whether the statement
    raises or not, as long as [cur.close()] does not raise. *)
Lemma run_sql_closes_once (E : Type) (drv : driver E) (conf : config)
  (ctx : context) (sql : string) (db : option string) (w : world E) :
  _require_auth conf ctx = Ok tt ->
  opens_cleanly drv conf db true w ->
  (forall e, snd (drv_cursor_close drv e) = Ok tt) ->
  opens (log (snd (run_sql E drv conf ctx sql db w))) = opens (log w) + 1
  /\ closes (log (snd (run_sql E drv conf ctx sql db w)))
     = closes (log w) + 1.
Proof.
  intros Hauth [H1 H2] Hcc.
  unfold_handlers. mred. rewrite Hauth. mred.
  revert H1 H2.
  destruct (drv_connect drv (connect_cfg conf db) (eng w)) as [e1 r1].
  cbn [fst snd]. intros -> H2. mred.
  revert H2.
  destruct (drv_cursor drv true e1) as [e2 r2].
  cbn [fst snd]. intros ->. mred.
  assert (Hend : forall l,
    opens (((l ++ [EvCursorClose (opens (log w))])
            ++ [EvClose (opens (log w))])%list) = opens l
    /\ closes (((l ++ [EvCursorClose (opens (log w))])
                ++ [EvClose (opens (log w))])%list) = closes l + 1).
  { intros l. rewrite !opens_app, !closes_app. cbn. lia. }
  assert (Hfin : forall e,
    exists e4 e5 r5,
      drv_cursor_close drv e = (e4, Ok tt)
      /\ drv_close drv e4 = (e5, r5)).
  { intros e. pose proof (Hcc e) as H4.
    destruct (drv_cursor_close drv e) as [e4 r4]. cbn [snd] in H4. subst r4.
    destruct (drv_close drv e4) as [e5 r5] eqn:H5. now exists e4, e5, r5. }
  destruct (drv_execute drv sql None e2) as [e3 [st|x]]; mred.
  - destruct (Hfin e3) as (e4 & e5 & r5 & Hx & Hy).
    destruct (pending st) as [rows|[]]; mred; rewrite Hx; mred;
      rewrite Hy; mred; rewrite !(proj1 (Hend _)), !(proj2 (Hend _)),
        !opens_app, !closes_app; cbn; lia.
  - destruct (Hfin e3) as (e4 & e5 & r5 & Hx & Hy).
    rewrite Hx; mred; rewrite Hy; mred.
    rewrite !(proj1 (Hend _)), !(proj2 (Hend _)), !opens_app, !closes_app.
    cbn. lia.
Qed.

(** C1, at the failing input: the statement of [insert_row] raises; the
    error propagates with the connection opened and [con.close()] never
    called. *)
Theorem insert_row_leaks_connection :
  insert_row nat (sample_driver true) open_conf ctx_bare "t"
    [("name", VStr "a")] None sample_world
  = (Raise (DatabaseError 1064 "syntax error"),
     {| log := [EvConnect 0 (connect_cfg open_conf None);
                EvCursor 0 false;
                EvExecute 0 "INSERT INTO `t` (`name`) VALUES (%s)"
                  (Some [VStr "a"])];
        eng := 0 |})
  /\ opens (log (snd (insert_row nat (sample_driver true) open_conf ctx_bare
                        "t" [("name", VStr "a")] None sample_world))) = 1
  /\ closes_of 0
       (log (snd (insert_row nat (sample_driver true) open_conf ctx_bare
                    "t" [("name", VStr "a")] None sample_world))) = 0
  /\ closes (log (snd (insert_row nat (sample_driver true) open_conf ctx_bare
                         "t" [("name", VStr "a")] None sample_world))) = 0.
Proof. repeat split. Qed.

(** On the same failing statement [run_sql] closes its connection once. *)
Example run_sql_closes_on_error :
  run_sql nat (sample_driver true) open_conf ctx_bare "SELEC 1" None
    sample_world
  = (Raise (DatabaseError 1064 "syntax error"),
     {| log := [EvConnect 0 (connect_cfg open_conf None);
                EvCursor 0 true;
                EvExecute 0 "SELEC 1" None;
                EvCursorClose 0;
                EvClose 0];
        eng := 0 |}).
Proof. reflexivity. Qed.

(** * Further properties of the code *)

(** ** White space around the secret *)

Section Strip.
Import PyStr PyStrFacts.

Lemma app_empty_r (s : string) : s ++ "" = s.
Proof. induction s as [|c r IH]; cbn; [reflexivity | now rewrite IH]. Qed.

Lemma rev_app (a b : string) : rev (a ++ b) = rev b ++ rev a.
Proof.
  induction a as [|c r IH]; cbn.
  - now rewrite app_empty_r.
  - now rewrite IH, app_assoc.
Qed.

Lemma rev_rev (s : string) : rev (rev s) = s.
Proof.
  induction s as [|c r IH]; cbn; [reflexivity|].
  rewrite rev_app, IH. reflexivity.
Qed.

Lemma lstrip_length (s : string) : String.length (lstrip s) <= String.length s.
Proof.
  induction s as [|c r IH]; cbn; [lia|].
  destruct (isspace c); cbn; lia.
Qed.

Lemma lstrip_fixed_head (c : ascii) (r : string) :
  lstrip (String c r) = String c r -> isspace c = false.
Proof.
  cbn. destruct (isspace c); [|reflexivity].
  intros H. pose proof (lstrip_length r) as Hl.
  rewrite H in Hl. cbn in Hl. lia.
Qed.

Lemma lstrip_idem (s : string) : lstrip (lstrip s) = lstrip s.
Proof.
  induction s as [|c r IH]; cbn; [reflexivity|].
  destruct (isspace c) eqn:Hc; [exact IH|].
  cbn. now rewrite Hc.
Qed.

Lemma lstrip_suffix (s : string) : exists ws, s = ws ++ lstrip s.
Proof.
  induction s as [|c r [ws IH]]; cbn.
  - now exists "".
  - destruct (isspace c).
    + exists (String c ws). cbn. now rewrite <- IH.
    + now exists "".
Qed.

Lemma rstrip_prefix (s : string) : exists ws, s = rstrip s ++ ws.
Proof.
  destruct (lstrip_suffix (rev s)) as [ws H].
  exists (rev ws). unfold rstrip.
  rewrite <- rev_app, <- H. now rewrite rev_rev.
Qed.

Lemma rstrip_idem (s : string) : rstrip (rstrip s) = rstrip s.
Proof. unfold rstrip. now rewrite rev_rev, lstrip_idem. Qed.

Lemma rstrip_keeps_clean_head (t : string) :
  lstrip t = t -> lstrip (rstrip t) = rstrip t.
Proof.
  intros Ht. destruct (rstrip_prefix t) as [ws Hp].
  destruct (rstrip t) as [|c r] eqn:Hr; [reflexivity|].
  rewrite Hp in Ht. cbn [append] in Ht.
  apply lstrip_fixed_head in Ht. cbn. now rewrite Ht.
Qed.

Lemma strip_idem (s : string) : strip (strip s) = strip s.
Proof.
  unfold strip.
  rewrite (rstrip_keeps_clean_head (lstrip s) (lstrip_idem s)).
  apply rstrip_idem.
Qed.

End Strip.

(** X1: the header [Bearer <secret>] is admitted exactly when the secret has
    no white space at its ends: the token is stripped before the comparison,
    the secret is not. *)
Theorem canonical_header_admitted_iff (key : string) :
  authorize (Some key) (Some ("Bearer " ++ key)) = Ok tt
  <-> PyStr.strip key = key.
Proof.
  unfold authorize, token_rejected. cbn [PyStr.truthy].
  destruct key as [|c r].
  - cbn. split; reflexivity.
  - cbn [PyStr.nonempty negb].
    change (PyStr.startswith "bearer " (PyStr.lower ("Bearer " ++ String c r)))
      with true.
    change (PyStr.split_once " " ("Bearer " ++ String c r))
      with ["Bearer"; String c r].
    cbn [negb nth_error res_bind].
    destruct (PyStr.strip (String c r) =? String c r) eqn:He; cbn [negb].
    + apply String.eqb_eq in He. split; [now intros _ | reflexivity].
    + apply String.eqb_neq in He. split; [discriminate | contradiction].
Qed.

(** X2: a secret with white space at either end locks everybody out: no
    credential at all is admitted. *)
Theorem padded_secret_admits_nobody (key : string) (cred : option string) :
  PyStr.strip key <> key ->
  authorize (Some key) cred = Raise unauthorized.
Proof.
  intros Hpad.
  assert (Hne : PyStr.nonempty key = true).
  { destruct key; [now elim Hpad | reflexivity]. }
  unfold authorize. cbn [PyStr.truthy]. rewrite Hne. cbn [negb].
  destruct (token_rejected_total key cred) as [b Hb]. rewrite Hb.
  destruct b; [reflexivity|].
  apply token_accepted_iff in Hb as (h & _ & scheme & rest & _ & _ & Hr).
  elim Hpad. rewrite <- Hr. apply strip_idem.
Qed.

Lemma padded_secret_admits_nobody_witness :
  authorize (Some " s3cret") (Some "Bearer  s3cret") = Raise unauthorized.
Proof.
  apply (padded_secret_admits_nobody " s3cret" (Some "Bearer  s3cret")).
  vm_compute. discriminate.
Defined.

(** ** Where the credential is read *)

(** X3: when the context has a truthy [request_headers], the credential is
    its [authorization] entry if that is a non-empty string; the
    [Authorization] entry and the request context are then not looked at. *)
Theorem lowercase_header_wins (ctx : context) (h : headers) (t : string) :
  request_headers ctx = Has (Some h) ->
  hdr_truthy h = true ->
  hdr_get h "authorization" = Ok (Some t) ->
  PyStr.nonempty t = true ->
  presented_token ctx = Some t.
Proof.
  intros Hh Ht Hg Hn. unfold presented_token, read_token.
  rewrite Hh. cbn [getattr res_bind headers_truthy]. rewrite Ht.
  cbn [res_bind]. rewrite Ht, Hg. cbn [res_bind PyStr.truthy].
  now rewrite Hn.
Qed.

Lemma lowercase_header_wins_witness :
  presented_token (ctx_with "Bearer s3cret") = Some "Bearer s3cret".
Proof.
  apply (lowercase_header_wins (ctx_with "Bearer s3cret")
           {| hdr_truthy := true;
              hdr_get := fun k =>
                if k =? "authorization" then Ok (Some "Bearer s3cret")
                else Ok None |} "Bearer s3cret"); reflexivity.
Defined.

(** X4: when the context has no usable [request_headers] (missing, [None] or
    falsy), the credential is read from the headers of
    [request_context.request]: the [authorization] entry if non-empty, else
    whatever [Authorization] gives; a lookup that raises counts as no
    credential. *)
Theorem request_headers_fallback (ctx : context) (rc : request_context_t)
  (rq : request) (h : headers) :
  getattr (request_headers ctx) None = Ok None
  \/ (exists h0, request_headers ctx = Has (Some h0)
                 /\ hdr_truthy h0 = false) ->
  request_context ctx = Has (Some rc) ->
  rc_request rc = Has (Some rq) ->
  req_headers rq = Has h ->
  hdr_truthy h = true ->
  presented_token ctx
  = match hdr_get h "authorization" with
    | Ok x =>
        if PyStr.truthy x then x
        else match hdr_get h "Authorization" with
             | Ok y => y
             | Raise _ => None
             end
    | Raise _ => None
    end.
Proof.
  intros Hrh Hrc Hrq Hh Ht. unfold presented_token, read_token.
  assert (Hfirst : exists a, getattr (request_headers ctx) None = Ok a
                             /\ headers_truthy a = false).
  { destruct Hrh as [H | (h0 & H & Hf)].
    - exists None. now split.
    - exists (Some h0). rewrite H. now split. }
  destruct Hfirst as (a & -> & Ha).
  cbn [res_bind]. rewrite Ha, Hrc. cbn [getattr res_bind].
  rewrite Hrq. cbn [getattr res_bind]. rewrite Hh. cbn [getattr res_bind].
  rewrite Ht.
  destruct (hdr_get h "authorization") as [x|e]; cbn [res_bind];
    [|reflexivity].
  destruct (PyStr.truthy x); [reflexivity|].
  destruct (hdr_get h "Authorization"); reflexivity.
Qed.

Lemma request_headers_fallback_witness :
  presented_token (ctx_via_request "Bearer s3cret") = Some "Bearer s3cret".
Proof.
  apply (request_headers_fallback (ctx_via_request "Bearer s3cret")
           {| rc_request :=
                Has (Some {| req_headers :=
                  Has {| hdr_truthy := true;
                         hdr_get := fun k =>
                           if k =? "Authorization"
                           then Ok (Some "Bearer s3cret")
                           else Ok None |} |}) |}
           {| req_headers :=
                Has {| hdr_truthy := true;
                       hdr_get := fun k =>
                         if k =? "Authorization"
                         then Ok (Some "Bearer s3cret")
                         else Ok None |} |}
           {| hdr_truthy := true;
              hdr_get := fun k =>
                if k =? "Authorization" then Ok (Some "Bearer s3cret")
                else Ok None |}).
  - left. reflexivity.
  - reflexivity.
  - reflexivity.
  - reflexivity.
  - reflexivity.
Defined.

(** X5: with no secret, or an empty one, the context is never consulted:
    every operation does the same whatever the context, a context whose
    properties raise included. *)
Theorem open_mode_ignores_context (E : Type) (drv : driver E)
  (conf : config) (ctx1 ctx2 : context) (op : operation) (w : world E) :
  PyStr.truthy (API_KEY conf) = false ->
  handle drv conf ctx1 op w = handle drv conf ctx2 op w.
Proof.
  intros Hk.
  assert (H : forall ctx, _require_auth conf ctx = Ok tt).
  { intros ctx. unfold _require_auth. now rewrite Hk. }
  destruct op; unfold handle, fmap, ping, list_databases, list_tables,
    describe_table, run_sql, create_database, drop_database, create_table,
    drop_table, insert_row, execute_many, require_auth, bind, lift;
    rewrite (H ctx1), (H ctx2); reflexivity.
Qed.

Lemma open_mode_ignores_context_witness :
  handle (sample_driver false) open_conf ctx_faulty
    (CreateDatabase "shop") sample_world
  = handle (sample_driver false) open_conf (ctx_with "Bearer s3cret")
      (CreateDatabase "shop") sample_world.
Proof.
  apply (open_mode_ignores_context nat (sample_driver false) open_conf
           ctx_faulty (ctx_with "Bearer s3cret") (CreateDatabase "shop")
           sample_world).
  reflexivity.
Defined.

(** ** Every handler, every driver *)

(** Case analysis on the next step of a handler: a driver call, the pending
    result of [fetchall], or the items of a list comprehension. *)
Ltac hstep :=
  first
    [ driver_step
    | match goal with
      | |- context [pending ?c] => destruct (pending c) as [?|[]]
      | |- context [map_res ?f ?l] => destruct (map_res f l)
      end; mred ].

Ltac open_handler conf ctx :=
  unfold handle; unfold_handlers; mred;
  destruct (_require_auth conf ctx) as [[]|?]; mred.

Lemma statements_app (l l' : list event) :
  statements (l ++ l') = statements l + statements l'.
Proof. unfold statements. now rewrite filter_app, length_app. Qed.

(** X6: whatever the driver does, one call appends to the log and leaves
    what was there; it opens at most one connection, closes no more
    connections than it opens, runs at most one statement call, and every
    driver call it makes is on the connection it opened. *)
Theorem one_connection_per_call (E : Type) (drv : driver E) (conf : config)
  (ctx : context) (op : operation) (w : world E) :
  exists new,
    log (snd (handle drv conf ctx op w)) = (log w ++ new)%list
    /\ opens new <= 1
    /\ closes new <= opens new
    /\ statements new <= 1
    /\ Forall (fun ev => event_cid ev = opens (log w)) new.
Proof.
  destruct op; open_handler conf ctx;
    try (exists []; rewrite app_nil_r; cbn; repeat split; auto; fail);
    repeat hstep;
    rewrite <- ?app_assoc; eexists; (split; [reflexivity|]);
    cbn; repeat split; auto; repeat constructor.
Qed.

(** ** Error paths *)

(** One step of a handler under known facts about the driver: the branches
    the facts exclude are closed on the spot. *)
Ltac settle Heq :=
  apply (f_equal snd) in Heq; cbn [fst snd] in *;
  repeat match goal with
         | H : _ |- _ =>
             tryif constr_eq H Heq then fail else rewrite H in Heq
         end;
  try congruence;
  repeat match goal with
         | H : ?t = ?t |- _ => clear H
         | H : Raise ?a = Raise _ |- _ => is_var a; injection H as ->
         | H : Ok ?a = Ok _ |- _ => is_var a; injection H as ->
         end.

Ltac kstep :=
  let Heq := fresh "Heq" in
  match goal with
  | |- context [drv_connect ?d ?a ?e] =>
      destruct (drv_connect d a e) as [? [[]|?]] eqn:Heq; settle Heq
  | |- context [drv_cursor ?d ?a ?e] =>
      destruct (drv_cursor d a e) as [? [[]|?]] eqn:Heq; settle Heq
  | |- context [drv_execute ?d ?s ?p ?e] =>
      destruct (drv_execute d s p e) as [? [?|?]] eqn:Heq; settle Heq
  | |- context [drv_executemany ?d ?s ?p ?e] =>
      destruct (drv_executemany d s p e) as [? [?|?]] eqn:Heq; settle Heq
  | |- context [drv_cursor_close ?d ?e] =>
      destruct (drv_cursor_close d e) as [? [[]|?]] eqn:Heq; settle Heq
  | |- context [drv_close ?d ?e] =>
      destruct (drv_close d e) as [? [[]|?]] eqn:Heq; settle Heq
  | |- context [pending ?c] => destruct (pending c) as [?|[]] eqn:Heq
  | |- context [map_res ?f ?l] => destruct (map_res f l) eqn:Heq
  end; mred.

Ltac count_events :=
  rewrite ?opens_app, ?closes_app; cbn; repeat split; try lia.

Lemma executed_app (l l' : list event) :
  executed (l ++ l') = (executed l ++ executed l')%list.
Proof. unfold executed. apply flat_map_app. Qed.

(** X7: once the call is authorized and the connection and the cursor are
    open, [run_sql] and [create_table] call [cur.execute] exactly once, with
    the caller's text as it is, backticks and all, and no parameters;
    [list_databases] and [list_tables] call it exactly once with their fixed
    [SHOW] statement; this whatever the statement, the fetch and the closing
    then do. *)
Theorem verbatim_statements (E : Type) (drv : driver E) (conf : config)
  (ctx : context) (text : string) (db : option string) (w : world E) :
  _require_auth conf ctx = Ok tt ->
  (forall a e, snd (drv_connect drv a e) = Ok tt) ->
  (forall d e, snd (drv_cursor drv d e) = Ok tt) ->
  executed (log (snd (run_sql E drv conf ctx text db w)))
  = (executed (log w) ++ [(text, None)])%list
  /\ executed (log (snd (create_table E drv conf ctx text db w)))
     = (executed (log w) ++ [(text, None)])%list
  /\ executed (log (snd (list_databases E drv conf ctx w)))
     = (executed (log w) ++ [("SHOW DATABASES", None)])%list
  /\ executed (log (snd (list_tables E drv conf ctx db w)))
     = (executed (log w) ++ [("SHOW TABLES", None)])%list.
Proof.
  intros Hauth Hc Hk.
  repeat split; unfold_handlers; mred; rewrite Hauth; mred;
    do 2 kstep; repeat hstep;
    rewrite !executed_app; cbn [executed flat_map app];
    rewrite ?app_nil_r; reflexivity.
Qed.

Lemma verbatim_statements_witness :
  executed (log (snd (run_sql nat (sample_driver true) open_conf ctx_bare
                        "SELECT `a` FROM t" None sample_world)))
  = (executed (log sample_world) ++ [("SELECT `a` FROM t", None)])%list
  /\ executed (log (snd (create_table nat (sample_driver true) open_conf
                           ctx_bare "SELECT `a` FROM t" None sample_world)))
     = (executed (log sample_world) ++ [("SELECT `a` FROM t", None)])%list
  /\ executed (log (snd (list_databases nat (sample_driver true) open_conf
                           ctx_bare sample_world)))
     = (executed (log sample_world) ++ [("SHOW DATABASES", None)])%list
  /\ executed (log (snd (list_tables nat (sample_driver true) open_conf
                           ctx_bare None sample_world)))
     = (executed (log sample_world) ++ [("SHOW TABLES", None)])%list.
Proof.
  apply (verbatim_statements nat (sample_driver true) open_conf ctx_bare
           "SELECT `a` FROM t" None sample_world); reflexivity.
Defined.

(** X8: when the connection cannot be opened, every operation but [ping]
    raises the driver's error as it is and makes no other driver call: the
    log gains the one [connect], with the schema the operation resolves. *)
Theorem connect_error_propagates (E : Type) (drv : driver E)
  (conf : config) (ctx : context) (op : operation) (w : world E)
  (db : option string) (x : pyexc) :
  _require_auth conf ctx = Ok tt ->
  schema_arg op = Some db ->
  snd (drv_connect drv (connect_cfg conf db) (eng w)) = Raise x ->
  fst (handle drv conf ctx op w) = Raise x
  /\ log (snd (handle drv conf ctx op w))
     = (log w ++ [EvConnect (opens (log w)) (connect_cfg conf db)])%list.
Proof.
  intros Hauth Hdb Hc.
  destruct op; cbn in Hdb; try discriminate Hdb; injection Hdb as <-;
    unfold handle; unfold_handlers; mred; rewrite Hauth; mred;
    kstep; split; reflexivity.
Qed.

Lemma connect_error_propagates_witness :
  fst (handle (scripted_driver true false false false false names_state)
         open_conf ctx_bare (ListTables (Some "shop")) sample_world)
  = Raise (OtherException "connect")
  /\ log (snd (handle
                 (scripted_driver true false false false false names_state)
                 open_conf ctx_bare (ListTables (Some "shop")) sample_world))
     = [EvConnect 0 (connect_cfg open_conf (Some "shop"))].
Proof.
  apply (connect_error_propagates nat
           (scripted_driver true false false false false names_state)
           open_conf ctx_bare (ListTables (Some "shop")) sample_world
           (Some "shop") (OtherException "connect")); reflexivity.
Defined.

(** X9: when the connection opens, every operation but [ping] calls
    [connect] first, on the schema its own argument resolves to;
    [list_databases], [create_database] and [drop_database] always use the
    configured default. *)
Theorem connect_comes_first (E : Type) (drv : driver E) (conf : config)
  (ctx : context) (op : operation) (w : world E) (db : option string) :
  _require_auth conf ctx = Ok tt ->
  schema_arg op = Some db ->
  exists rest,
    log (snd (handle drv conf ctx op w))
    = (log w ++ EvConnect (opens (log w)) (connect_cfg conf db) :: rest)%list.
Proof.
  intros Hauth Hdb.
  destruct op; cbn in Hdb; try discriminate Hdb; injection Hdb as <-;
    unfold handle; unfold_handlers; mred; rewrite Hauth; mred;
    repeat hstep; rewrite <- ?app_assoc; eexists; reflexivity.
Qed.

Lemma connect_comes_first_witness :
  exists rest,
    log (snd (handle (sample_driver false) open_conf ctx_bare
                (DropDatabase "shop") sample_world))
    = EvConnect 0 (connect_cfg open_conf None) :: rest.
Proof.
  apply (connect_comes_first nat (sample_driver false) open_conf ctx_bare
           (DropDatabase "shop") sample_world None); reflexivity.
Defined.

(** X10: when [con.cursor] raises, every operation but [ping], [run_sql]
    included, raises that error with the connection opened and never
    closed: the cursor is created outside any [try]. *)
Theorem cursor_error_leaks (E : Type) (drv : driver E) (conf : config)
  (ctx : context) (op : operation) (w : world E) (x : pyexc) :
  _require_auth conf ctx = Ok tt ->
  is_ping op = false ->
  (forall a e, snd (drv_connect drv a e) = Ok tt) ->
  (forall d e, snd (drv_cursor drv d e) = Raise x) ->
  fst (handle drv conf ctx op w) = Raise x
  /\ opens (log (snd (handle drv conf ctx op w))) = opens (log w) + 1
  /\ closes (log (snd (handle drv conf ctx op w))) = closes (log w).
Proof.
  intros Hauth Hp Hc Hk.
  destruct op; try discriminate Hp;
    unfold handle; unfold_handlers; mred; rewrite Hauth; mred;
    do 2 kstep; count_events.
Qed.

Lemma cursor_error_leaks_witness :
  fst (handle (scripted_driver false true false false false names_state)
         open_conf ctx_bare (RunSql "SELECT 1" None) sample_world)
  = Raise (OtherException "cursor")
  /\ opens (log (snd (handle
                        (scripted_driver false true false false false
                           names_state)
                        open_conf ctx_bare (RunSql "SELECT 1" None)
                        sample_world)))
     = opens (log sample_world) + 1
  /\ closes (log (snd (handle
                         (scripted_driver false true false false false
                            names_state)
                         open_conf ctx_bare (RunSql "SELECT 1" None)
                         sample_world)))
     = closes (log sample_world).
Proof.
  apply (cursor_error_leaks nat
           (scripted_driver false true false false false names_state)
           open_conf ctx_bare (RunSql "SELECT 1" None) sample_world
           (OtherException "cursor")); reflexivity.
Defined.

(** X11: when the statement raises, every operation that opens a connection,
    except [run_sql], raises the statement's error with the connection
    opened and [con.close()] never called. *)
Theorem statement_error_leaks (E : Type) (drv : driver E) (conf : config)
  (ctx : context) (op : operation) (w : world E) (x : pyexc) :
  _require_auth conf ctx = Ok tt ->
  is_ping op = false ->
  is_run_sql op = false ->
  healthy drv ->
  statements_fail drv x ->
  fst (handle drv conf ctx op w) = Raise x
  /\ opens (log (snd (handle drv conf ctx op w))) = opens (log w) + 1
  /\ closes (log (snd (handle drv conf ctx op w))) = closes (log w).
Proof.
  intros Hauth Hp Hr (Hc & Hk & Hcc & Hcl) (Hx & Hm).
  destruct op; try discriminate Hp; try discriminate Hr;
    unfold handle; unfold_handlers; mred; rewrite Hauth; mred;
    do 3 kstep; count_events.
Qed.

Lemma statement_error_leaks_witness :
  fst (handle (scripted_driver false false true false false names_state)
         open_conf ctx_bare
         (ExecuteMany "UPDATE t SET x=%s" [[VInt 1]] None) sample_world)
  = Raise (DatabaseError 1064 "syntax error")
  /\ opens (log (snd (handle
                        (scripted_driver false false true false false
                           names_state)
                        open_conf ctx_bare
                        (ExecuteMany "UPDATE t SET x=%s" [[VInt 1]] None)
                        sample_world)))
     = opens (log sample_world) + 1
  /\ closes (log (snd (handle
                         (scripted_driver false false true false false
                            names_state)
                         open_conf ctx_bare
                         (ExecuteMany "UPDATE t SET x=%s" [[VInt 1]] None)
                         sample_world)))
     = closes (log sample_world).
Proof.
  apply (statement_error_leaks nat
           (scripted_driver false false true false false names_state)
           open_conf ctx_bare
           (ExecuteMany "UPDATE t SET x=%s" [[VInt 1]] None) sample_world
           (DatabaseError 1064 "syntax error")); try reflexivity.
  - repeat split.
  - split; intros sql ps e; reflexivity.
Defined.

Lemma run_sql_closes_once_witness :
  opens (log (snd (run_sql nat (sample_driver true) open_conf ctx_bare
                     "SELEC 1" None sample_world)))
  = opens (log sample_world) + 1
  /\ closes (log (snd (run_sql nat (sample_driver true) open_conf ctx_bare
                         "SELEC 1" None sample_world)))
     = closes (log sample_world) + 1.
Proof.
  apply (run_sql_closes_once nat (sample_driver true) open_conf ctx_bare
           "SELEC 1" None sample_world).
  - reflexivity.
  - split; reflexivity.
  - intros e. reflexivity.
Defined.

(** X13: an operation other than [run_sql] that returns normally has closed
    the connection it opened: one [connect] and one [con.close()], none of
    either for [ping]. *)
Theorem normal_return_means_closed (E : Type) (drv : driver E)
  (conf : config) (ctx : context) (op : operation) (w : world E)
  (r : reply) :
  is_run_sql op = false ->
  fst (handle drv conf ctx op w) = Ok r ->
  exists new,
    log (snd (handle drv conf ctx op w)) = (log w ++ new)%list
    /\ opens new = (if is_ping op then 0 else 1)
    /\ closes new = opens new.
Proof.
  intros Hr Hok. revert Hok.
  destruct op; try discriminate Hr; open_handler conf ctx;
    try (intros H; discriminate H);
    repeat hstep; intros H; try discriminate H;
    rewrite <- ?app_assoc;
    first [ eexists; split; [reflexivity | split; reflexivity]
          | exists []; rewrite app_nil_r; repeat split ].
Qed.

Lemma normal_return_means_closed_witness :
  exists new,
    log (snd (handle (sample_driver false) open_conf ctx_bare
                (DropTable "t" None) sample_world))
    = (log sample_world ++ new)%list
    /\ opens new = (if is_ping (DropTable "t" None) then 0 else 1)
    /\ closes new = opens new.
Proof.
  apply (normal_return_means_closed nat (sample_driver false) open_conf
           ctx_bare (DropTable "t" None) sample_world
           (RText "dropped table t")); reflexivity.
Defined.

(** X14: the outcome of [run_sql] does not depend on how closing goes: once
    the connection and the cursor are open, an error of the statement
    propagates as it is, an error of [fetchall] other than [InterfaceError]
    propagates as it is, and otherwise the three fields are returned, even
    when [cur.close()] or [con.close()] raises. *)
Theorem run_sql_outcome (E : Type) (drv : driver E) (conf : config)
  (ctx : context) (sql : string) (db : option string) (w : world E) :
  _require_auth conf ctx = Ok tt ->
  opens_cleanly drv conf db true w ->
  fst (run_sql E drv conf ctx sql db w)
  = match snd (drv_execute drv sql None
                 (engine_at_execute drv conf db true w)) with
    | Raise e => Raise e
    | Ok st =>
        match pending st with
        | Ok rows =>
            Ok {| r_rowcount := rowcount st; r_lastrowid := lastrowid st;
                  r_rows := rows |}
        | Raise (InterfaceError _) =>
            Ok {| r_rowcount := rowcount st; r_lastrowid := lastrowid st;
                  r_rows := [] |}
        | Raise e => Raise e
        end
    end.
Proof.
  intros Hauth [H1 H2]. unfold engine_at_execute.
  unfold_handlers. mred. rewrite Hauth. mred.
  revert H1 H2.
  destruct (drv_connect drv (connect_cfg conf db) (eng w)) as [e1 r1].
  cbn [fst snd]. intros -> H2. mred.
  revert H2.
  destruct (drv_cursor drv true e1) as [e2 r2].
  cbn [fst snd]. intros ->. mred.
  destruct (drv_execute drv sql None e2) as [e3 [st|x]]; mred;
    [destruct (pending st) as [rows|[]]; mred|];
    (destruct (drv_cursor_close drv e3) as [e4 [[]|y]]; mred;
     [destruct (drv_close drv e4) as [e5 [[]|z]]|]; reflexivity).
Qed.

Lemma run_sql_outcome_witness :
  fst (run_sql nat
         (scripted_driver false false false true true select_state)
         open_conf ctx_bare "SELECT id, name FROM t" None sample_world)
  = Ok {| r_rowcount := 2; r_lastrowid := None;
          r_rows := [DictRow [("id", VInt 1); ("name", VStr "a")];
                     DictRow [("id", VInt 2); ("name", VStr "b")]] |}.
Proof.
  apply (run_sql_outcome nat
           (scripted_driver false false false true true select_state)
           open_conf ctx_bare "SELECT id, name FROM t" None sample_world).
  - reflexivity.
  - split; reflexivity.
Defined.

(** X15: in [run_sql], when [cur.close()] raises, the error is swallowed and
    [con.close()] is never called: the connection stays open whatever the
    statement did. *)
Theorem run_sql_cursor_close_error_skips_close (E : Type) (drv : driver E)
  (conf : config) (ctx : context) (sql : string) (db : option string)
  (w : world E) (x : pyexc) :
  _require_auth conf ctx = Ok tt ->
  opens_cleanly drv conf db true w ->
  (forall e, snd (drv_cursor_close drv e) = Raise x) ->
  opens (log (snd (run_sql E drv conf ctx sql db w))) = opens (log w) + 1
  /\ closes (log (snd (run_sql E drv conf ctx sql db w))) = closes (log w).
Proof.
  intros Hauth [H1 H2] Hcc.
  unfold_handlers. mred. rewrite Hauth. mred.
  revert H1 H2.
  destruct (drv_connect drv (connect_cfg conf db) (eng w)) as [e1 r1].
  cbn [fst snd]. intros -> H2. mred.
  revert H2.
  destruct (drv_cursor drv true e1) as [e2 r2].
  cbn [fst snd]. intros ->. mred.
  destruct (drv_execute drv sql None e2) as [e3 [st|y]]; mred;
    [destruct (pending st) as [rows|[]]; mred|];
    (pose proof (Hcc e3) as H4;
     destruct (drv_cursor_close drv e3) as [e4 r4]; cbn [snd] in H4;
     subst r4; mred; count_events).
Qed.

Lemma run_sql_cursor_close_error_skips_close_witness :
  opens (log (snd (run_sql nat
                     (scripted_driver false false false true false
                        select_state)
                     open_conf ctx_bare "SELECT 1" None sample_world)))
  = opens (log sample_world) + 1
  /\ closes (log (snd (run_sql nat
                         (scripted_driver false false false true false
                            select_state)
                         open_conf ctx_bare "SELECT 1" None sample_world)))
     = closes (log sample_world).
Proof.
  apply (run_sql_cursor_close_error_skips_close nat
           (scripted_driver false false false true false select_state)
           open_conf ctx_bare "SELECT 1" None sample_world
           (OtherException "cursor close")).
  - reflexivity.
  - split; reflexivity.
  - intros e. reflexivity.
Defined.

(** ** Results of the list and DDL handlers *)

Lemma first_columns_iff (rows : list row) (names : list pyval) :
  map_res row_item0 rows = Ok names <-> Forall2 first_column rows names.
Proof.
  revert names; induction rows as [|r rows IH]; intros names; cbn.
  - split.
    + intros H. injection H as <-. constructor.
    + intros H. inversion H. reflexivity.
  - split.
    + destruct r as [[|v vs]|kv]; cbn; try discriminate.
      destruct (map_res row_item0 rows) as [l|x]; cbn; [|discriminate].
      intros H. injection H as <-. constructor.
      * now exists vs.
      * now apply IH.
    + intros H. inversion H as [|r' v rows' names' [rest ->] Hrest]; subst.
      cbn. apply IH in Hrest. now rewrite Hrest.
Qed.

(** X16: when nothing raises and every row is a tuple with a first column,
    [list_databases] and [list_tables] return the first column of every
    row, in the order the cursor gives the rows, and close their
    connection. *)
Theorem list_handlers_return_first_column (E : Type) (drv : driver E)
  (conf : config) (ctx : context) (db : option string) (w : world E)
  (st : cursor_state) (rows : list row) (names : list pyval) :
  _require_auth conf ctx = Ok tt ->
  healthy drv ->
  statements_answer drv st ->
  pending st = Ok rows ->
  Forall2 first_column rows names ->
  fst (list_databases E drv conf ctx w) = Ok names
  /\ fst (list_tables E drv conf ctx db w) = Ok names
  /\ closes (log (snd (list_tables E drv conf ctx db w)))
     = closes (log w) + 1
  /\ closes (log (snd (list_databases E drv conf ctx w)))
     = closes (log w) + 1.
Proof.
  intros Hauth (Hc & Hk & Hcc & Hcl) (Hx & Hm) Hrows Hnames.
  apply first_columns_iff in Hnames.
  repeat split; unfold_handlers; mred; rewrite Hauth; mred;
    do 3 kstep; rewrite Hrows; mred; rewrite Hnames; mred;
    do 2 kstep; try reflexivity; count_events.
Qed.

Lemma list_handlers_return_first_column_witness :
  fst (list_databases nat (answering_driver names_state) open_conf ctx_bare
         sample_world) = Ok [VStr "app"; VStr "mysql"]
  /\ fst (list_tables nat (answering_driver names_state) open_conf ctx_bare
            (Some "app") sample_world) = Ok [VStr "app"; VStr "mysql"]
  /\ closes (log (snd (list_tables nat (answering_driver names_state)
                         open_conf ctx_bare (Some "app") sample_world)))
     = closes (log sample_world) + 1
  /\ closes (log (snd (list_databases nat (answering_driver names_state)
                         open_conf ctx_bare sample_world)))
     = closes (log sample_world) + 1.
Proof.
  apply (list_handlers_return_first_column nat
           (answering_driver names_state) open_conf ctx_bare (Some "app")
           sample_world names_state
           [TupleRow [VStr "app"]; TupleRow [VStr "mysql"]]
           [VStr "app"; VStr "mysql"]).
  - reflexivity.
  - repeat split.
  - split; intros sql ps e; reflexivity.
  - reflexivity.
  - repeat constructor; now exists [].
Defined.

(** X17: the confirmation of [create_database], [drop_database] and
    [drop_table] repeats the name as the caller gave it, while the statement
    that ran names the identifier without its backticks. *)
Theorem confirmation_echoes_raw_name (E : Type) (drv : driver E)
  (conf : config) (ctx : context) (name : string) (db : option string)
  (w : world E) (st : cursor_state) :
  _require_auth conf ctx = Ok tt ->
  healthy drv ->
  statements_answer drv st ->
  (fst (create_database E drv conf ctx name w)
   = Ok ("created database " ++ name)
   /\ executed (log (snd (create_database E drv conf ctx name w)))
      = (executed (log w)
         ++ [(("CREATE DATABASE `" ++ strip_backticks name ++ "`")%string,
             None)])%list)
  /\ (fst (drop_database E drv conf ctx name w)
      = Ok ("dropped database " ++ name)
      /\ executed (log (snd (drop_database E drv conf ctx name w)))
         = (executed (log w)
            ++ [(("DROP DATABASE `" ++ strip_backticks name ++ "`")%string,
             None)])%list)
  /\ (fst (drop_table E drv conf ctx name db w)
      = Ok ("dropped table " ++ name)
      /\ executed (log (snd (drop_table E drv conf ctx name db w)))
         = (executed (log w)
            ++ [(("DROP TABLE `" ++ strip_backticks name ++ "`")%string,
             None)])%list).
Proof.
  intros Hauth (Hc & Hk & Hcc & Hcl) (Hx & Hm).
  repeat split; unfold_handlers; mred; rewrite Hauth; mred;
    do 5 kstep; try reflexivity;
    unfold executed; rewrite !flat_map_app; cbn [flat_map app];
    rewrite !app_nil_r; reflexivity.
Qed.

Lemma confirmation_echoes_raw_name_witness :
  (fst (create_database nat (answering_driver alter_state) open_conf
          ctx_bare "a`b" sample_world)
   = Ok "created database a`b"
   /\ executed (log (snd (create_database nat (answering_driver alter_state)
                            open_conf ctx_bare "a`b" sample_world)))
      = [("CREATE DATABASE `ab`", None)])
  /\ (fst (drop_database nat (answering_driver alter_state) open_conf
             ctx_bare "a`b" sample_world)
      = Ok "dropped database a`b"
      /\ executed (log (snd (drop_database nat (answering_driver alter_state)
                               open_conf ctx_bare "a`b" sample_world)))
         = [("DROP DATABASE `ab`", None)])
  /\ (fst (drop_table nat (answering_driver alter_state) open_conf
             ctx_bare "a`b" None sample_world)
      = Ok "dropped table a`b"
      /\ executed (log (snd (drop_table nat (answering_driver alter_state)
                               open_conf ctx_bare "a`b" None sample_world)))
         = [("DROP TABLE `ab`", None)]).
Proof.
  apply (confirmation_echoes_raw_name nat (answering_driver alter_state)
           open_conf ctx_bare "a`b" None sample_world alter_state).
  - reflexivity.
  - repeat split.
  - split; intros sql ps e; reflexivity.
Defined.

(** ** The sanitizer and the placeholders *)

Section Sanitizer.
Import PyStr PyStrFacts.

Lemma replace_char_app (c : ascii) (a b : string) :
  replace_char c "" (a ++ b) = replace_char c "" a ++ replace_char c "" b.
Proof.
  induction a as [|d r IH]; cbn; [reflexivity|].
  destruct (Ascii.eqb d c); cbn; now rewrite IH.
Qed.

Lemma replace_char_clean (c : ascii) (s : string) :
  count c s = 0 -> replace_char c "" s = s.
Proof.
  induction s as [|d r IH]; cbn; [reflexivity|].
  destruct (Ascii.eqb d c); [discriminate|].
  intros H. now rewrite IH.
Qed.

Lemma replace_char_length (c : ascii) (s : string) :
  String.length (replace_char c "" s) + count c s = String.length s.
Proof.
  induction s as [|d r IH]; cbn; [reflexivity|].
  destruct (Ascii.eqb d c); cbn; lia.
Qed.

Lemma count_replace_other (c d : ascii) (s : string) :
  Ascii.eqb c d = false ->
  count c (replace_char d "" s) = count c s.
Proof.
  intros Hcd. induction s as [|x r IH]; cbn; [reflexivity|].
  destruct (Ascii.eqb x d) eqn:Hx; cbn.
  - apply Ascii.eqb_eq in Hx. subst x.
    rewrite Ascii.eqb_sym, Hcd. exact IH.
  - now rewrite IH.
Qed.

Lemma count_join_sum (c : ascii) (sep : string) (l : list string) :
  count c sep = 0 ->
  count c (join sep l) = list_sum (map (count c) l).
Proof.
  intros Hsep. unfold join.
  induction l as [|x l IH]; [reflexivity|].
  destruct l as [|y l'].
  - cbn. lia.
  - change (concat sep (x :: y :: l'))
      with (x ++ sep ++ concat sep (y :: l')).
    rewrite !count_app, Hsep, IH. cbn [map list_sum fold_right]. lia.
Qed.

End Sanitizer.

(** X18: the sanitizer removes backticks and nothing else: it is idempotent,
    it leaves an identifier unchanged exactly when the identifier has no
    backtick, it shortens the identifier by the number of its backticks, and
    two identifiers that differ only by a backtick are embedded as the same
    quoted name. *)
Theorem strip_backticks_facts (x y : string) :
  strip_backticks (strip_backticks x) = strip_backticks x
  /\ (strip_backticks x = x <-> PyStr.count backtick x = 0)
  /\ String.length (strip_backticks x) + PyStr.count backtick x
     = String.length x
  /\ quote_ident (x ++ "`" ++ y) = quote_ident (x ++ y).
Proof.
  unfold quote_ident, strip_backticks. repeat split.
  - apply replace_char_clean, PyStrFacts.replace_char_removes.
  - intros H. rewrite <- H. apply PyStrFacts.replace_char_removes.
  - apply replace_char_clean.
  - apply replace_char_length.
  - now rewrite !replace_char_app.
Qed.

(** X19: the generated INSERT holds one [%] per value plus every [%] of the
    table and column names, which the sanitizer leaves in place: the
    placeholders match the parameters in number exactly when no identifier
    contains a [%]. *)
Theorem insert_percent_count (table : string) (data : record) :
  PyStr.count "%" (insert_sql table data)
  = List.length (values data) + PyStr.count "%" table
    + list_sum (map (PyStr.count "%") (keys data)).
Proof.
  assert (Hq : forall x, PyStr.count "%" (quote_ident x) = PyStr.count "%" x).
  { intros x. unfold quote_ident, strip_backticks.
    rewrite !PyStrFacts.count_app, count_replace_other by reflexivity.
    cbn. lia. }
  unfold insert_sql, insert_cols, insert_placeholders.
  rewrite !PyStrFacts.count_app, Hq, !count_join_sum by reflexivity.
  rewrite map_map.
  assert (Hp : forall n, list_sum (map (PyStr.count "%") (repeat "%s" n)) = n).
  { induction n as [|n IH]; [reflexivity|].
    cbn [repeat map list_sum fold_right]. unfold list_sum in IH.
    rewrite IH. reflexivity. }
  rewrite Hp.
  rewrite (map_ext _ (PyStr.count "%") Hq).
  unfold values. rewrite length_map.
  change (PyStr.count "%" "INSERT INTO ") with 0.
  change (PyStr.count "%" " (") with 0.
  change (PyStr.count "%" ") VALUES (") with 0.
  change (PyStr.count "%" ")") with 0.
  lia.
Qed.

(** A column named [%s] adds a marker the parameters do not cover. *)
Example percent_in_column_name :
  insert_sql "t" [("%s", VInt 1)] = "INSERT INTO `t` (`%s`) VALUES (%s)"
  /\ PyStr.count "%" (insert_sql "t" [("%s", VInt 1)]) = 2.
Proof. split; reflexivity. Qed.

(** ** Transport and routes *)

Lemma lower_char_idem (c : ascii) :
  PyStr.lower_char (PyStr.lower_char c) = PyStr.lower_char c.
Proof.
  destruct c as [[] [] [] [] [] [] [] []]; reflexivity.
Qed.

Lemma lower_idem (s : string) : PyStr.lower (PyStr.lower s) = PyStr.lower s.
Proof.
  induction s as [|c r IH]; cbn; [reflexivity|].
  now rewrite lower_char_idem, IH.
Qed.

(** X20: whatever the transport string, the application routes [/health]
    first; it mounts an MCP endpoint exactly for [http] (streamable HTTP)
    and [sse], so any other value yields a server that answers the health
    check only. *)
Theorem health_always_routed (transport : string) :
  hd_error (build_asgi_app transport) = Some (Route "/health" Health)
  /\ (build_asgi_app transport
      = [Route "/health" Health; Mount "/" McpStreamableHttp]
      <-> transport = "http")
  /\ (build_asgi_app transport = [Route "/health" Health; Mount "/" McpSse]
      <-> transport = "sse")
  /\ (existsb is_mount (build_asgi_app transport) = false
      <-> transport <> "http" /\ transport <> "sse").
Proof.
  unfold build_asgi_app.
  destruct (transport =? "http") eqn:Hh; [|destruct (transport =? "sse") eqn:Hs].
  - apply String.eqb_eq in Hh. subst. cbn.
    repeat split; try reflexivity; try discriminate.
    intros [H _]. now elim H.
  - apply String.eqb_neq in Hh. apply String.eqb_eq in Hs. subst. cbn.
    repeat split; try reflexivity; try discriminate.
    intros [_ H]. now elim H.
  - apply String.eqb_neq in Hh. apply String.eqb_neq in Hs. cbn.
    repeat split; try reflexivity; try discriminate; try assumption;
      intros H; contradiction.
Qed.

(** X21: the transport setting is read without regard to letter case and
    defaults to [http], which serves the health route and the streamable
    HTTP endpoint; the process runs over stdio exactly when the setting
    lower-cases to [stdio]. *)
Theorem transport_ignores_case (v : string) (HOST : string) (PORT : Z) :
  main (TRANSPORT (Some v)) HOST PORT
  = main (TRANSPORT (Some (PyStr.lower v))) HOST PORT
  /\ (main (TRANSPORT (Some v)) HOST PORT = RunStdio
      <-> PyStr.lower v = "stdio")
  /\ main (TRANSPORT None) HOST PORT
     = Serve [Route "/health" Health; Mount "/" McpStreamableHttp] HOST PORT.
Proof.
  unfold TRANSPORT, main. rewrite lower_idem.
  repeat split.
  - destruct (PyStr.lower v =? "stdio") eqn:H; [|discriminate].
    intros _. now apply String.eqb_eq.
  - intros ->. reflexivity.
Qed.
